(** * Chat-history management and tool dispatch of the LangChain how-to notebooks

    The development embeds the Python cells of

    - [docs/docs/how_to/chatbots_memory.ipynb]: the manual turn of cell 5,
      [trim_messages] (cell 12) and [summarize_messages] (cell 19);
    - the notebook "How to use tools without function calling":
      [multiply], [add], [exponentiate] and [tool_chain];
    - the notebook "How to call tools in parallel": [call_tools].

    Python values are modelled as the cells use them: JSON-like values as
    [PyVal], dicts as [gmap string PyVal], Python lists that are shared and
    mutated as cells of a heap, exceptions as the [Raise] branch of
    [Result]. *)

From Stdlib Require Import ZArith.
From stdpp Require Import gmap strings list fin_maps.

Set Warnings "-register-all".

Local Open Scope Z_scope.

(** ** Python values and exceptions *)

(** A float is never computed with here; the only one the notebooks can
    produce is [base ** exponent] for a negative [exponent], and it is kept
    as that unevaluated power. *)
Inductive PyFloat : Type :=
  | FloatPow (base exponent : Z).

Inductive PyVal : Type :=
  | PNone
  | PBool (b : bool)
  | PInt (z : Z)
  | PFloat (f : PyFloat)
  | PStr (s : string)
  | PList (l : list PyVal)
  | PDict (d : gmap string PyVal).

Inductive Exn : Type :=
  | KeyError (key : PyVal)
  | TypeError (what : string)
  | ZeroDivisionError
  | ValidationError (field : string)
  | ModelError (what : string).

Inductive Result (A : Type) : Type :=
  | Return (a : A)
  | Raise (e : Exn).
Arguments Return {A} a.
Arguments Raise {A} e.

(** ** A monad interface shared by pure-with-exceptions and stateful code *)

Class Monad (m : Type -> Type) : Type := {
  ret : forall {A : Type}, A -> m A;
  bind : forall {A B : Type}, m A -> (A -> m B) -> m B
}.

Declare Scope py_scope.
Delimit Scope py_scope with py.
Notation "x <- c1 ;; c2" := (bind c1 (fun x => c2))
  (at level 100, c1 at next level, right associativity) : py_scope.
Notation "c1 ;;; c2" := (bind c1 (fun _ => c2))
  (at level 100, right associativity) : py_scope.
Local Open Scope py_scope.

#[export] Instance Result_Monad : Monad Result := {
  ret := @Return;
  bind := fun A B c k => match c with Return a => k a | Raise e => Raise e end
}.

(** [for x in xs: ...] where the body rebuilds each element: the loop stops
    at the first exception. *)
Fixpoint for_each {A B : Type} (body : A -> Result B) (xs : list A) : Result (list B) :=
  match xs with
  | [] => Return []
  | x :: rest =>
      y <- body x ;;
      ys <- for_each body rest ;;
      Return (y :: ys)
  end.

(** [d[key]] on a dict, for a string key. *)
Definition getitem (d : gmap string PyVal) (key : string) : Result PyVal :=
  match d !! key with
  | Some v => Return v
  | None => Raise (KeyError (PStr key))
  end.

(** [v[key]] on an arbitrary value with a string key: only dicts accept it. *)
Definition subscript (v : PyVal) (key : string) : Result PyVal :=
  match v with
  | PDict d => getitem d key
  | PList _ => Raise (TypeError "list indices must be integers or slices, not str")
  | PStr _ => Raise (TypeError "string indices must be integers, not 'str'")
  | _ => Raise (TypeError "object is not subscriptable")
  end.

(** ** Messages *)

Inductive MessageType : Type := system | human | ai | tool_role.

(** [HumanMessage(content=...)], [AIMessage(content=..., tool_calls=[...])];
    each tool call is a dict with the keys ["name"], ["args"] and ["id"]. *)
Record Message : Type := mkMessage {
  type : MessageType;
  content : string;
  tool_calls : list (gmap string PyVal)
}.

Definition SystemMessage (content : string) : Message := mkMessage system content [].
Definition HumanMessage (content : string) : Message := mkMessage human content [].
Definition AIMessage (content : string) : Message := mkMessage ai content [].

(** * Tools *)

Module Tools.

Definition Runnable : Type := PyVal -> Result PyVal.

Record Tool : Type := mkTool {
  name : string;
  invoke : Runnable
}.

(** Modelled from the spec: the [@tool] decorator is library code. The spec
    gives a tool as a callable with a JSON-schema-described argument
    contract, and the notebook prints that schema for [multiply]: every
    parameter has ['type': 'integer']. An [args] value that is not a dict
    holding an integer at a parameter is rejected. *)
Definition int_arg (args : PyVal) (param : string) : Result Z :=
  match args with
  | PDict d =>
      match d !! param with
      | Some (PInt z) => Return z
      | _ => Raise (ValidationError param)
      end
  | _ => Raise (ValidationError param)
  end.

Definition tool (name : string) (param1 param2 : string)
    (func : Z -> Z -> Result PyVal) : Tool :=
  {| name := name;
     invoke := fun args =>
       a <- int_arg args param1 ;;
       b <- int_arg args param2 ;;
       func a b |}.

(** [return first_int * second_int] *)
Definition multiply : Tool :=
  tool "multiply" "first_int" "second_int"
    (fun first_int second_int => Return (PInt (first_int * second_int))).

(** [return first_int + second_int] *)
Definition add : Tool :=
  tool "add" "first_int" "second_int"
    (fun first_int second_int => Return (PInt (first_int + second_int))).

(** [return base**exponent]: on ints, a negative exponent gives a float,
    and raises [ZeroDivisionError] when the base is zero. *)
Definition exponentiate : Tool :=
  tool "exponentiate" "base" "exponent"
    (fun base exponent =>
       if 0 <=? exponent then Return (PInt (base ^ exponent))
       else if base =? 0 then Raise ZeroDivisionError
       else Return (PFloat (FloatPow base exponent))).

(** [{tool.name: tool for tool in tools}]: a later tool replaces an earlier
    one of the same name. *)
Definition tool_dict (tools : list Tool) : gmap string Tool :=
  foldl (fun m t => <[name t := t]> m) ∅ tools.

(** [tool_map[key]]: the keys are strings, so only a string can be found;
    a list or a dict cannot even be hashed. *)
Definition tool_map_getitem (tool_map : gmap string Tool) (key : PyVal) : Result Tool :=
  match key with
  | PStr n =>
      match tool_map !! n with
      | Some t => Return t
      | None => Raise (KeyError key)
      end
  | PList _ => Raise (TypeError "unhashable type: 'list'")
  | PDict _ => Raise (TypeError "unhashable type: 'dict'")
  | _ => Raise (KeyError key)
  end.

Definition itemgetter (key : string) : Runnable := fun x => subscript x key.

(** [first | second] *)
Definition pipe (first second : Runnable) : Runnable :=
  fun x => y <- first x ;; second y.

Section WithTools.

(** The notebook's global [tools]. *)
Variable tools : list Tool.

Definition tool_chain (model_output : PyVal) : Result Runnable :=
  let tool_map := tool_dict tools in
  key <- subscript model_output "name" ;;
  chosen_tool <- tool_map_getitem tool_map key ;;
  Return (pipe (itemgetter "arguments") (invoke chosen_tool)).

(** [... | tool_chain]: a function of a chain that returns a runnable has
    that runnable invoked on the same input. *)
Definition run_tool_chain (model_output : PyVal) : Result PyVal :=
  chain <- tool_chain model_output ;;
  chain model_output.

(** [RunnablePassthrough.assign(output=tool_chain)] *)
Definition assign_output (model_output : gmap string PyVal) : Result (gmap string PyVal) :=
  out <- run_tool_chain (PDict model_output) ;;
  Return (<["output" := out]> model_output).

(** [msg.tool_calls.copy()] is a new list of the same dicts; the loop
    stores ["output"] into each of them. The right-hand side is evaluated
    left to right before the store. *)
Definition call_tools (msg : Message) : Result (list (gmap string PyVal)) :=
  let tool_map := tool_dict tools in
  let tool_calls := tool_calls msg in
  for_each
    (fun tool_call =>
       key <- getitem tool_call "name" ;;
       chosen <- tool_map_getitem tool_map key ;;
       args <- getitem tool_call "args" ;;
       output <- invoke chosen args ;;
       Return (<["output" := output]> tool_call))
    tool_calls.

(** A name is registered when some tool of [tools] carries it. *)
Definition registered (n : string) : Prop := ∃ t, t ∈ tools ∧ name t = n.

(** The tool call names a registered tool, and that tool, applied to the
    call's ["args"], returns [output]. *)
Definition returns (tool_call : gmap string PyVal) (output : PyVal) : Prop :=
  ∃ n chosen args,
    tool_call !! "name" = Some (PStr n) ∧
    registered n ∧
    tool_dict tools !! n = Some chosen ∧
    tool_call !! "args" = Some args ∧
    invoke chosen args = Return output.

(** The body of the loop of [call_tools], for one tool call. *)
Definition call_tool (tool_call : gmap string PyVal) : Result (gmap string PyVal) :=
  key <- getitem tool_call "name" ;;
  chosen <- tool_map_getitem (tool_dict tools) key ;;
  args <- getitem tool_call "args" ;;
  output <- invoke chosen args ;;
  Return (<["output" := output]> tool_call).

(** Every tool call of the message names a registered tool. *)
Definition names_registered (msg : Message) : Prop :=
  ∀ tool_call, tool_call ∈ tool_calls msg →
    ∃ n, tool_call !! "name" = Some (PStr n) ∧ registered n.

End WithTools.

(** [tools = [add, exponentiate, multiply]] of the prompting notebook and
    [tools = [multiply, exponentiate, add]] of the parallel-calls one. *)
Definition tools_prompting : list Tool := [add; exponentiate; multiply].
Definition tools_parallel : list Tool := [multiply; exponentiate; add].

Definition dict (kvs : list (string * PyVal)) : gmap string PyVal := list_to_map kvs.

(** [{'name': ..., 'args': {...}, 'id': ...}] *)
Definition tool_call (name : string) (args : list (string * PyVal)) (id : string)
    : gmap string PyVal :=
  dict [("name", PStr name); ("args", PDict (dict args)); ("id", PStr id)].

(** The model output the prompting notebook records for
    "what's 3 plus 1132". *)
Definition model_output_add : gmap string PyVal :=
  dict [("name", PStr "add");
        ("arguments", PDict (dict [("first_int", PInt 3); ("second_int", PInt 1132)]))].

(** A model output that names a tool nobody registered. *)
Definition model_output_divide : gmap string PyVal :=
  dict [("name", PStr "divide");
        ("arguments", PDict (dict [("first_int", PInt 6); ("second_int", PInt 3)]))].

(** The tool calls the parallel-calls notebook records for its question. *)
Definition msg_parallel : Message :=
  mkMessage ai ""
    [tool_call "multiply" [("first_int", PInt 23); ("second_int", PInt 7)]
       "call_22tgOrsVLyLMsl2RLbUhtycw";
     tool_call "multiply" [("first_int", PInt 5); ("second_int", PInt 18)]
       "call_EbKHEG3TjqBhEwb7aoxUtgzf";
     tool_call "add" [("first_int", PInt 1000000); ("second_int", PInt 1000000000)]
       "call_LUhu2IT3vINxlTc5fCVY6Nhi";
     tool_call "exponentiate" [("base", PInt 37); ("exponent", PInt 3)]
       "call_bnCZIXelOKkmcyd4uGXId9Ct"].

(** A message asking for zero to the power minus one. *)
Definition msg_zero_power : Message :=
  mkMessage ai ""
    [tool_call "exponentiate" [("base", PInt 0); ("exponent", PInt (-1))] "call_0"].

End Tools.

(** * Chat history *)

Module Memory.

(** ** Python lists *)

(** [xs[start:]] *)
Definition slice_from {A : Type} (xs : list A) (start : Z) : list A :=
  let n := Z.of_nat (length xs) in
  let i := if start <? 0 then Z.max (n + start) 0 else Z.min start n in
  drop (Z.to_nat i) xs.

(** ** The interpreter state

    A Python list is an object: [stored_messages = history.messages] is a
    second name for the list the history holds, and [add_message] grows
    that list in place. [lists] is the heap of list objects, [histories]
    gives for each history (named by its session key) the list its
    [messages] attribute is bound to, and [calls] records every prompt sent
    to the chat model, oldest first. *)
Record State : Type := mkState {
  lists : gmap nat (list Message);
  histories : gmap string nat;
  calls : list (list Message)
}.

Definition empty_state : State := mkState ∅ ∅ [].

Definition M (A : Type) : Type := State -> Result A * State.

#[export] Instance M_Monad : Monad M := {
  ret := fun A a s => (Return a, s);
  bind := fun A B c k s =>
    match c s with
    | (Return a, s') => k a s'
    | (Raise e, s') => (Raise e, s')
    end
}.

Definition outcome {A : Type} (c : M A) (s : State) : Result A := fst (c s).
Definition exec {A : Type} (c : M A) (s : State) : State := snd (c s).

(** [for x in xs: body(x)] *)
Fixpoint for_ {A : Type} (xs : list A) (body : A -> M unit) : M unit :=
  match xs with
  | [] => ret tt
  | x :: rest => body x ;;; for_ rest body
  end.

(** The contents of a list object. *)
Definition deref (s : State) (l : nat) : list Message := default [] (lists s !! l).

(** [[]]: a new, empty list object. *)
Definition new_list : M nat := fun s =>
  let l := fresh (dom (lists s)) in
  (Return l, mkState (<[l := []]> (lists s)) (histories s) (calls s)).

(** [len(l)] *)
Definition len (l : nat) : M Z := fun s => (Return (Z.of_nat (length (deref s l))), s).

(** [l.append(x)] *)
Definition list_append (l : nat) (x : Message) : M unit := fun s =>
  (Return tt, mkState (<[l := deref s l ++ [x]]> (lists s)) (histories s) (calls s)).

(** [l[start:]]: a copy, taken when the expression is evaluated. *)
Definition slice (l : nat) (start : Z) : M (list Message) := fun s =>
  (Return (slice_from (deref s l) start), s).

(** The sequence a session holds: what the spec calls [read]. An unseen
    key has the empty sequence. *)
Definition read (session : string) (s : State) : list Message :=
  match histories s !! session with
  | Some l => deref s l
  | None => []
  end.

(** ** ChatMessageHistory *)

(** Modelled from the spec: [self.messages = l] is the store's
    set-sequence, an atomic replace of what the session holds. *)
Definition set_messages (session : string) (l : nat) : M unit := fun s =>
  (Return tt, mkState (lists s) (<[session := l]> (histories s)) (calls s)).

(** Modelled from the spec: the class [ChatMessageHistory] is library code.
    The constructor gives a session whose sequence is empty. *)
Definition ChatMessageHistory (session : string) : M unit :=
  l <- new_list ;;
  set_messages session l.

(** Modelled from the spec: [history.messages] is the store's get-sequence.
    It hands out the list itself; a session's sequence is created empty on
    first reference to an unseen key. *)
Definition messages (session : string) : M nat := fun s =>
  match histories s !! session with
  | Some l => (Return l, s)
  | None => (l <- new_list ;; set_messages session l ;;; ret l) s
  end.

(** Modelled from the spec: [add_message] is the store's append-one, which
    adds the message to the end of the session's sequence. *)
Definition add_message (session : string) (message : Message) : M unit :=
  l <- messages session ;;
  list_append l message.

(** Modelled from the spec: [add_user_message] appends a message of role
    user with the given text. *)
Definition add_user_message (session : string) (message : string) : M unit :=
  add_message session (HumanMessage message).

(** Modelled from the spec: [add_ai_message] appends a message of role
    assistant; the notebook passes it a text (cell 4) or the model's
    response itself (cell 5). *)
Definition add_ai_message (session : string) (message : Message + string) : M unit :=
  match message with
  | inl response => add_message session response
  | inr text => add_message session (AIMessage text)
  end.

(** Modelled from the spec: [clear] discards all messages of the session by
    the store's set-sequence: the session gets a new empty sequence, and a
    list read earlier keeps its contents (the recorded output of cell 14
    still shows the two messages [trim_messages] read before it cleared). *)
Definition clear (session : string) : M unit :=
  l <- new_list ;;
  set_messages session l.

Section Notebook.

(** The chat model, [chat = ChatOpenAI(...)]: an opaque call that answers
    a prompt with one message or raises. Its answer may depend on how many
    calls were made before. *)
Variable chat : nat -> list Message -> Result Message.

(** The notebook's global [demo_ephemeral_chat_history], named by the
    session it serves. *)
Variable demo_ephemeral_chat_history : string.

(** [chat.invoke(prompt)] *)
Definition chat_invoke (prompt : list Message) : M Message := fun s =>
  (chat (length (calls s)) prompt,
   mkState (lists s) (histories s) (calls s ++ [prompt])).

(** The prompt of cell 3: the system text, then the placeholder
    [messages]. *)
Definition prompt (msgs : list Message) : list Message :=
  SystemMessage "You are a helpful assistant. Answer all questions to the best of your ability."
    :: msgs.

(** [chain = prompt | chat], invoked as [chain.invoke({"messages": l})]. *)
Definition chain_invoke (l : nat) : M Message := fun s =>
  chat_invoke (prompt (deref s l)) s.

(** One turn as cell 5 writes it:
    [add_user_message(input1)], [response = chain.invoke(...)],
    [add_ai_message(response)]. *)
Definition manual_turn (input : string) : M unit :=
  add_user_message demo_ephemeral_chat_history input ;;;
  context <- messages demo_ephemeral_chat_history ;;
  response <- chain_invoke context ;;
  add_ai_message demo_ephemeral_chat_history (inl response).

Definition trim_messages (chain_input : PyVal) : M bool :=
  stored_messages <- messages demo_ephemeral_chat_history ;;
  n <- len stored_messages ;;
  if n <=? 2 then ret false
  else
    clear demo_ephemeral_chat_history ;;;
    kept <- slice stored_messages (-2) ;;
    for_ kept (fun message => add_message demo_ephemeral_chat_history message) ;;;
    ret true.

(** The prompt built inside [summarize_messages]: the placeholder
    [chat_history], then the user instruction. *)
Definition summarization_prompt (chat_history : list Message) : list Message :=
  chat_history ++
  [HumanMessage "Distill the above chat messages into a single summary message. Include as many specific details as you can."].

(** [summarization_chain = summarization_prompt | chat], invoked as
    [summarization_chain.invoke({"chat_history": l})]. *)
Definition summarization_chain_invoke (l : nat) : M Message := fun s =>
  chat_invoke (summarization_prompt (deref s l)) s.

Definition summarize_messages (chain_input : PyVal) : M bool :=
  stored_messages <- messages demo_ephemeral_chat_history ;;
  n <- len stored_messages ;;
  if n =? 0 then ret false
  else
    summary_message <- summarization_chain_invoke stored_messages ;;
    clear demo_ephemeral_chat_history ;;;
    add_message demo_ephemeral_chat_history summary_message ;;;
    ret true.

End Notebook.

(** Cell 10: a new history, preloaded with four messages. *)
Definition cell_10 (session : string) : M unit :=
  ChatMessageHistory session ;;;
  add_user_message session "Hey there! I'm Nemo." ;;;
  add_ai_message session (inr "Hello!") ;;;
  add_user_message session "How are you today?" ;;;
  add_ai_message session (inr "Fine thanks!").

(** The state after cell 10, for the session id the notebook passes. *)
Definition preloaded : State := exec (cell_10 "unused") empty_state.

(** A history holding the one message of the spec's example scenario. *)
Definition nemo_state : State :=
  exec (ChatMessageHistory "unused" ;;; add_user_message "unused" "Hi I'm Nemo") empty_state.

(** A model that always gives the answer of cell 11. *)
Definition nemo_chat : nat -> list Message -> Result Message :=
  fun _ _ => Return (AIMessage "Your name is Nemo.").

(** A model that gives, call after call, the answers recorded in cells
    11, 13 and 15. *)
Definition recorded_chat : nat -> list Message -> Result Message :=
  fun i _ =>
    match i with
    | O => Return (AIMessage "Your name is Nemo.")
    | S O => Return (AIMessage "P. Sherman's address is 42 Wallaby Way, Sydney.")
    | _ => Return (AIMessage "I'm sorry, I don't have access to your personal information.")
    end.

(** Cells 11 to 15, with the turn of cell 5 standing for the library
    wrapper, which sends the model the same prompt: a turn, then twice the
    trimming followed by a turn. *)
Definition cells_11_to_13 (session : string) : M unit :=
  manual_turn recorded_chat session "What's my name?" ;;;
  trim_messages session PNone ;;;
  manual_turn recorded_chat session "Where does P. Sherman live?".

Definition cells_11_to_15 (session : string) : M unit :=
  cells_11_to_13 session ;;;
  trim_messages session PNone ;;;
  manual_turn recorded_chat session "What is my name?".

(** No history is bound to a list that is not there, and no two
    histories are bound to the same list. *)
Definition well_formed (s : State) : Prop :=
  (∀ k l, histories s !! k = Some l → is_Some (lists s !! l)) ∧
  (∀ k1 k2 l, histories s !! k1 = Some l → histories s !! k2 = Some l → k1 = k2).

(** [c] keeps [P], whether it returns or raises. *)
Definition preserves {A : Type} (P : State → Prop) (c : M A) : Prop :=
  ∀ s, P s → P (exec c s).

(** The session [other] is in order and holds [xs]. *)
Definition holds (other : string) (xs : list Message) (s : State) : Prop :=
  well_formed s ∧ read other s = xs.

(** Cell 5 as a whole: a new history, a first turn whose response is
    stored, then a second request whose response is the value of the cell
    and is not stored. *)
Definition cell_5 (chat : nat -> list Message -> Result Message)
    (demo_ephemeral_chat_history : string) : M Message :=
  ChatMessageHistory demo_ephemeral_chat_history ;;;
  let input1 := "Translate this sentence from English to French: I love programming." in
  add_user_message demo_ephemeral_chat_history input1 ;;;
  context <- messages demo_ephemeral_chat_history ;;
  response <- chain_invoke chat context ;;
  add_ai_message demo_ephemeral_chat_history (inl response) ;;;
  let input2 := "What did I just ask you?" in
  add_user_message demo_ephemeral_chat_history input2 ;;;
  context <- messages demo_ephemeral_chat_history ;;
  chain_invoke chat context.




(** A model whose first call times out and whose later calls answer. *)
Definition flaky_chat : nat -> list Message -> Result Message :=
  fun i _ =>
    match i with
    | O => Raise (ModelError "Request timed out.")
    | _ => Return (AIMessage "Your name is Nemo.")
    end.

(** A model that gives the summary and then the answer recorded in cell 21. *)
Definition recorded_summary_chat : nat -> list Message -> Result Message :=
  fun i _ =>
    match i with
    | O => Return (AIMessage "The conversation is between Nemo and an AI. Nemo introduces himself and the AI responds with a greeting. Nemo then asks the AI how it is doing, and the AI responds that it is fine.")
    | _ => Return (AIMessage "You introduced yourself as Nemo. How can I assist you today, Nemo?")
    end.

(** A model whose call times out. *)
Definition failing_chat : nat -> list Message -> Result Message :=
  fun _ _ => Raise (ModelError "Request timed out.").

End Memory.

(** * Facts about tool dispatch *)

Section ToolFacts.

Import Tools.

Lemma tool_dict_lookup_acc (tools : list Tool) (m : gmap string Tool) (n : string) (t : Tool) :
  foldl (fun m t => <[name t := t]> m) m tools !! n = Some t →
  (t ∈ tools ∧ name t = n) ∨ m !! n = Some t.
Proof.
  revert m. induction tools as [|u tools IH]; intros m Hlook; simpl in Hlook.
  - by right.
  - destruct (IH _ Hlook) as [[Hin Hname]|Hm].
    + left. split; [apply elem_of_cons; by right | done].
    + destruct (decide (name u = n)) as [Heq|Hne].
      * rewrite Heq, lookup_insert_eq in Hm. injection Hm as <-.
        left. split; [apply elem_of_cons; by left | done].
      * rewrite lookup_insert_ne in Hm by done. by right.
Qed.

Lemma tool_dict_lookup_Some (tools : list Tool) (n : string) (t : Tool) :
  tool_dict tools !! n = Some t → t ∈ tools ∧ name t = n.
Proof.
  intros Hlook. destruct (tool_dict_lookup_acc tools ∅ n t Hlook) as [H|H]; [done|].
  by rewrite lookup_empty in H.
Qed.

Lemma tool_dict_is_Some_acc (tools : list Tool) (m : gmap string Tool) (n : string) :
  is_Some (m !! n) ∨ registered tools n →
  is_Some (foldl (fun m t => <[name t := t]> m) m tools !! n).
Proof.
  revert m. induction tools as [|u tools IH]; intros m H; simpl.
  - destruct H as [H|(t & Hin & _)]; [done | by apply elem_of_nil in Hin].
  - apply IH. destruct H as [H|(t & Hin & Hname)].
    + left. destruct (decide (name u = n)) as [<-|Hne].
      * rewrite lookup_insert_eq. by eexists.
      * by rewrite lookup_insert_ne.
    + apply elem_of_cons in Hin as [->|Hin].
      * left. rewrite <- Hname, lookup_insert_eq. by eexists.
      * right. by exists t.
Qed.

Lemma tool_dict_registered (tools : list Tool) (n : string) :
  registered tools n ↔ is_Some (tool_dict tools !! n).
Proof.
  split.
  - intros H. apply tool_dict_is_Some_acc. by right.
  - intros [t Ht]. exists t. by apply tool_dict_lookup_Some.
Qed.

Lemma tool_dict_unregistered (tools : list Tool) (n : string) :
  ¬ registered tools n ↔ tool_dict tools !! n = None.
Proof. rewrite tool_dict_registered, eq_None_not_Some. done. Qed.

(** What [tool_chain] does on a dict whose ["name"] is the string [n]. *)
Lemma tool_chain_unfold (tools : list Tool) (model_output : gmap string PyVal) (n : string) :
  model_output !! "name" = Some (PStr n) →
  tool_chain tools (PDict model_output) =
    match tool_dict tools !! n with
    | Some t => Return (pipe (itemgetter "arguments") (invoke t))
    | None => Raise (KeyError (PStr n))
    end.
Proof.
  intros Hname. unfold tool_chain, subscript, getitem. rewrite Hname. simpl.
  by destruct (tool_dict tools !! n).
Qed.

(** Some string is the name of no tool. *)
Lemma unregistered_name_exists (tools : list Tool) : ∃ n, ¬ registered tools n.
Proof.
  exists (fresh (name <$> tools)). intros (t & Hin & Hname).
  apply (infinite_is_fresh (name <$> tools)). rewrite <- Hname.
  by apply list_elem_of_fmap_2.
Qed.

(** With distinct names, a name belongs to one tool only. *)
Lemma registered_tool_unique (tools : list Tool) (t t' : Tool) :
  NoDup (name <$> tools) → t ∈ tools → t' ∈ tools → name t = name t' → t = t'.
Proof.
  intros Hnodup Ht Ht' Hname.
  apply list_elem_of_lookup in Ht as [i Hi]. apply list_elem_of_lookup in Ht' as [j Hj].
  assert (Hij : i = j).
  { apply (NoDup_lookup (name <$> tools) i j (name t)); [done| |].
    - by rewrite list_lookup_fmap, Hi.
    - by rewrite list_lookup_fmap, Hj, Hname. }
  subst j. congruence.
Qed.

(** C9. Tool dispatch is partial on the tool name. For a model output
    whose ["name"] is the string [n]: when [n] is the name of a registered
    tool, [tool_chain] returns the chain made of a registered tool of that
    name, which is the tool itself when the names are distinct, as they are
    in the notebooks; it raises exactly when [n] is not registered, and the
    exception is then the [KeyError] of the map lookup. For every tool list
    some model output takes that error branch. *)
Theorem tool_chain_dispatch (tools : list Tool) :
  (∀ (model_output : gmap string PyVal) (n : string),
     model_output !! "name" = Some (PStr n) →
     (registered tools n →
        ∃ t, t ∈ tools ∧ name t = n ∧
             tool_chain tools (PDict model_output)
             = Return (pipe (itemgetter "arguments") (invoke t))) ∧
     (NoDup (name <$> tools) →
        ∀ t, t ∈ tools → name t = n →
             tool_chain tools (PDict model_output)
             = Return (pipe (itemgetter "arguments") (invoke t))) ∧
     ((∃ e, tool_chain tools (PDict model_output) = Raise e) ↔ ¬ registered tools n) ∧
     (¬ registered tools n →
        tool_chain tools (PDict model_output) = Raise (KeyError (PStr n)))) ∧
  (∃ (model_output : gmap string PyVal) (n : string),
     model_output !! "name" = Some (PStr n) ∧
     ¬ registered tools n ∧
     tool_chain tools (PDict model_output) = Raise (KeyError (PStr n))).
Proof.
  assert (Hmiss : ∀ (model_output : gmap string PyVal) n,
             model_output !! "name" = Some (PStr n) → ¬ registered tools n →
             tool_chain tools (PDict model_output) = Raise (KeyError (PStr n))).
  { intros mo n Hname Hun. rewrite (tool_chain_unfold _ _ _ Hname).
    apply tool_dict_unregistered in Hun. by rewrite Hun. }
  split.
  - intros mo n Hname. rewrite (tool_chain_unfold _ _ _ Hname). repeat split.
    + intros Hreg. apply tool_dict_registered in Hreg as [t Ht].
      exists t. rewrite Ht. by destruct (tool_dict_lookup_Some _ _ _ Ht).
    + intros Hnodup t Hin Hn.
      assert (Hreg : registered tools n) by (by exists t).
      apply tool_dict_registered in Hreg as [t' Ht']. rewrite Ht'.
      destruct (tool_dict_lookup_Some _ _ _ Ht') as [Hin' Hn'].
      by rewrite (registered_tool_unique tools t t' Hnodup Hin Hin') by congruence.
    + intros [e He] Hreg. apply tool_dict_registered in Hreg as [t Ht].
      by rewrite Ht in He.
    + intros Hun. apply tool_dict_unregistered in Hun. rewrite Hun. by eexists.
    + intros Hun. apply tool_dict_unregistered in Hun. by rewrite Hun.
  - destruct (unregistered_name_exists tools) as [n Hn].
    exists {["name" := PStr n]}, n.
    assert (Hname : ({["name" := PStr n]} : gmap string PyVal) !! "name" = Some (PStr n))
      by apply lookup_singleton_eq.
    auto.
Qed.

Lemma tool_chain_dispatch_witness :
  (model_output_add !! "name" = Some (PStr "add") ∧
   NoDup (name <$> tools_prompting) ∧
   tool_chain tools_prompting (PDict model_output_add)
   = Return (pipe (itemgetter "arguments") (invoke add))) ∧
  (model_output_divide !! "name" = Some (PStr "divide") ∧
   tool_chain tools_prompting (PDict model_output_divide)
   = Raise (KeyError (PStr "divide"))).
Proof.
  destruct (tool_chain_dispatch tools_prompting) as [Hall _].
  split.
  - assert (Hnodup : NoDup (name <$> tools_prompting)) by (apply (bool_decide_unpack _); vm_compute; exact I).
    split; [reflexivity|]. split; [exact Hnodup|].
    destruct (Hall model_output_add "add" eq_refl) as (_ & Hselect & _).
    apply Hselect; [exact Hnodup | | reflexivity].
    apply elem_of_cons. by left.
  - split; [reflexivity|].
    destruct (Hall model_output_divide "divide" eq_refl) as (_ & _ & _ & Hmiss).
    apply Hmiss. intros (t & Hin & Hname).
    unfold tools_prompting in Hin.
    repeat (apply elem_of_cons in Hin as [->|Hin]); try discriminate Hname.
    by apply elem_of_nil in Hin.
Defined.

(** The recorded runs of the two notebooks. *)
Example tool_chain_add_example :
  run_tool_chain tools_prompting (PDict model_output_add) = Return (PInt 1135).
Proof. vm_compute. reflexivity. Qed.

Example assign_output_add_example :
  assign_output tools_prompting model_output_add
  = Return (<["output" := PInt 1135]> model_output_add).
Proof. vm_compute. reflexivity. Qed.

Example call_tools_parallel_example :
  match call_tools tools_parallel msg_parallel with
  | Return entries => map (λ entry : gmap string PyVal, entry !! "output") entries
  | Raise _ => []
  end
  = [Some (PInt 161); Some (PInt 90); Some (PInt 1001000000); Some (PInt 50653)].
Proof. vm_compute. reflexivity. Qed.

Lemma for_each_Forall2 {A B : Type} (P : A → B → Prop) (body : A → Result B) (xs : list A) :
  (∀ x, x ∈ xs → ∃ y, body x = Return y ∧ P x y) →
  ∃ ys, for_each body xs = Return ys ∧ Forall2 P xs ys.
Proof.
  induction xs as [|x xs IH]; intros Hbody; simpl.
  - exists []. by split.
  - destruct (Hbody x) as (y & Hy & HP); [apply elem_of_cons; by left|].
    destruct IH as (ys & Hys & HF).
    { intros x' Hin. apply Hbody. apply elem_of_cons. by right. }
    exists (y :: ys). rewrite Hy, Hys. split; [done | by constructor].
Qed.

(** The loop stops at the first tool call whose body raises. *)
Lemma for_each_raise {A B : Type} (body : A → Result B) (xs : list A) (x : A)
    (rest : list A) (ys : list B) (e : Exn) :
  for_each body xs = Return ys → body x = Raise e →
  for_each body (xs ++ x :: rest) = Raise e.
Proof.
  revert ys. induction xs as [|x' xs IH]; intros ys Hxs Hx; simpl in *.
  - by rewrite Hx.
  - destruct (body x'); [|done]. simpl in *.
    destruct (for_each body xs) as [ys'|e'] eqn:Hrec; [|done].
    by rewrite (IH ys').
Qed.

(** An exception of a tool comes out of [call_tools]. *)
Lemma call_tools_propagates (tools : list Tool) (msg : Message)
    (before rest : list (gmap string PyVal)) (tc : gmap string PyVal)
    (n : string) (chosen : Tool) (args : PyVal) (e : Exn) :
  tool_calls msg = before ++ tc :: rest →
  (∀ x, x ∈ before → ∃ v, returns tools x v) →
  tc !! "name" = Some (PStr n) →
  tool_dict tools !! n = Some chosen →
  tc !! "args" = Some args →
  invoke chosen args = Raise e →
  call_tools tools msg = Raise e.
Proof.
  intros Hsplit Hbefore Hname Hmap Hargs Hraise. unfold call_tools. rewrite Hsplit.
  set (body := λ tool_call : gmap string PyVal, bind (getitem tool_call "name") _).
  destruct (for_each_Forall2 (λ _ _, True) body before) as (ys & Hys & _).
  { intros x Hin. destruct (Hbefore x Hin) as (v & n' & c' & a' & Hn & _ & Hm & Ha & Hi).
    exists (<["output" := v]> x). split; [|done].
    unfold body, getitem, tool_map_getitem. simpl.
    rewrite Hn. simpl. rewrite Hm, Ha. simpl. by rewrite Hi. }
  apply (for_each_raise body before tc rest ys e Hys).
  unfold body, getitem, tool_map_getitem. simpl.
  rewrite Hname. simpl. rewrite Hmap, Hargs. simpl. by rewrite Hraise.
Qed.

(** C10, as amended. For every message whose tool calls all name
    registered tools and on whose ["args"] each named tool returns, the
    result of [call_tools] is a list with one entry per tool call, in the
    original order; the ["output"] of each entry is what the named tool
    returned on that entry's ["args"], and every other key of the entry,
    ["name"], ["args"] and ["id"] among them, is as it was. *)
Theorem call_tools_outputs (tools : list Tool) (msg : Message) :
  (∀ tc, tc ∈ tool_calls msg → ∃ v, returns tools tc v) →
  ∃ result,
    call_tools tools msg = Return result ∧
    length result = length (tool_calls msg) ∧
    ∀ i tc, tool_calls msg !! i = Some tc →
      ∃ entry v,
        result !! i = Some entry ∧
        returns tools tc v ∧
        entry !! "output" = Some v ∧
        entry !! "name" = tc !! "name" ∧
        entry !! "args" = tc !! "args" ∧
        entry !! "id" = tc !! "id" ∧
        ∀ key, key ≠ "output" → entry !! key = tc !! key.
Proof.
  intros Hret. unfold call_tools.
  set (body := λ tool_call : gmap string PyVal, bind (getitem tool_call "name") _).
  destruct (for_each_Forall2
              (λ tc entry, ∃ v, returns tools tc v ∧ entry = <["output" := v]> tc)
              body (tool_calls msg)) as (result & Hres & HF).
  { intros tc Hin. destruct (Hret tc Hin) as (v & Hv).
    exists (<["output" := v]> tc). split; [|by exists v].
    destruct Hv as (n & chosen & args & Hname & _ & Hmap & Hargs & Hinv).
    unfold body, getitem, tool_map_getitem. simpl.
    rewrite Hname. simpl. rewrite Hmap, Hargs. simpl. by rewrite Hinv. }
  exists result. split; [done|]. split; [symmetry; by eapply Forall2_length|].
  intros i tc Hi.
  destruct (Forall2_lookup_l _ _ _ _ _ HF Hi) as (entry & Hentry & v & Hv & ->).
  exists (<["output" := v]> tc), v.
  split; [done|]. split; [done|]. split; [apply lookup_insert_eq|].
  repeat split; try (by apply lookup_insert_ne).
  intros key Hkey. by apply lookup_insert_ne.
Qed.

Ltac returns_by v n t :=
  exists v; exists n, t; eexists;
  split; [reflexivity|];
  split; [exists t; split; [set_solver | reflexivity]|];
  split; [vm_compute; reflexivity|];
  split; [reflexivity | vm_compute; reflexivity].

Lemma call_tools_outputs_witness :
  ∃ result,
    call_tools tools_parallel msg_parallel = Return result ∧
    length result = 4%nat.
Proof.
  destruct (call_tools_outputs tools_parallel msg_parallel) as (result & Hres & Hlen & _).
  - intros tc Hin. unfold msg_parallel in Hin. simpl in Hin.
    repeat (apply elem_of_cons in Hin as [->|Hin]);
      [ returns_by (PInt 161) "multiply" multiply
      | returns_by (PInt 90) "multiply" multiply
      | returns_by (PInt 1001000000) "add" add
      | returns_by (PInt 50653) "exponentiate" exponentiate
      | by apply elem_of_nil in Hin ].
  - exists result. split; [exact Hres | exact Hlen].
Defined.

(** C10, as stated, fails: every tool call of [msg_zero_power] names a
    registered tool, and [call_tools] returns no list, because
    [0 ** -1] raises. *)
Lemma call_tools_raises_zero_power :
  names_registered tools_parallel msg_zero_power ∧
  call_tools tools_parallel msg_zero_power = Raise ZeroDivisionError.
Proof.
  split; [|vm_compute; reflexivity].
  intros tc Hin. unfold msg_zero_power in Hin. simpl in Hin.
  apply elem_of_cons in Hin as [->|Hin]; [|by apply elem_of_nil in Hin].
  exists "exponentiate". split; [reflexivity|].
  exists exponentiate. split; [set_solver | reflexivity].
Qed.

(** ** Further facts about dispatch *)

Lemma call_tools_loop (tools : list Tool) (msg : Message) :
  call_tools tools msg = for_each (call_tool tools) (tool_calls msg).
Proof. reflexivity. Qed.

Lemma tool_dict_lookup_NoDup (tools : list Tool) (t : Tool) :
  NoDup (name <$> tools) → t ∈ tools → tool_dict tools !! name t = Some t.
Proof.
  intros Hnodup Hin.
  assert (Hreg : registered tools (name t)) by (by exists t).
  apply tool_dict_registered in Hreg as [t' Ht']. rewrite Ht'. f_equal.
  destruct (tool_dict_lookup_Some _ _ _ Ht') as [Hin' Hname].
  by apply (registered_tool_unique tools t' t Hnodup Hin' Hin).
Qed.

Lemma for_each_app {A B : Type} (body : A → Result B) (xs ys : list A) :
  for_each body (xs ++ ys)
  = (rx <- for_each body xs ;; ry <- for_each body ys ;; Return (rx ++ ry)).
Proof.
  induction xs as [|x xs IH]; simpl.
  - by destruct (for_each body ys).
  - destruct (body x); [|done]. simpl in *. rewrite IH.
    destruct (for_each body xs); [|done]. simpl.
    by destruct (for_each body ys).
Qed.

Lemma for_each_Return_inv {A B : Type} (body : A → Result B) (xs : list A) (ys : list B) :
  for_each body xs = Return ys → Forall2 (λ x y, body x = Return y) xs ys.
Proof.
  revert ys. induction xs as [|x xs IH]; intros ys Hrun; simpl in Hrun.
  - injection Hrun as <-. constructor.
  - destruct (body x) as [y|] eqn:Hx; [|done]. simpl in Hrun.
    destruct (for_each body xs) as [ys'|] eqn:Hxs; [|done]. simpl in Hrun.
    injection Hrun as <-. constructor; [done | by apply IH].
Qed.

Lemma for_each_Raise_inv {A B : Type} (body : A → Result B) (xs : list A) (e : Exn) :
  for_each body xs = Raise e →
  ∃ before x rest ys,
    xs = before ++ x :: rest ∧ for_each body before = Return ys ∧ body x = Raise e.
Proof.
  induction xs as [|x xs IH]; intros Hrun; simpl in Hrun; [done|].
  destruct (body x) as [y|e'] eqn:Hx; simpl in Hrun.
  - destruct (for_each body xs) as [ys'|e'] eqn:Hxs; simpl in Hrun; [done|].
    injection Hrun as ->.
    destruct (IH eq_refl) as (before & x' & rest & ys & -> & Hbefore & Hfail).
    exists (x :: before), x', rest, (y :: ys). simpl. rewrite Hx, Hbefore. by repeat split.
  - injection Hrun as ->. exists [], x, xs, []. by repeat split.
Qed.

(** X1. [tool_chain] returns a chain exactly for a dict whose ["name"] is
    a string naming a registered tool. Everything else raises: a value
    that is not a dict a [TypeError], a dict without ["name"] the
    [KeyError] of that key, before the tool map is consulted. *)
Theorem tool_chain_returns_iff (tools : list Tool) (model_output : PyVal) :
  ((∃ chain, tool_chain tools model_output = Return chain) ↔
   (∃ d n, model_output = PDict d ∧ d !! "name" = Some (PStr n) ∧ registered tools n)) ∧
  ((∀ d, model_output ≠ PDict d) →
     ∃ what, tool_chain tools model_output = Raise (TypeError what)) ∧
  (∀ d, model_output = PDict d → d !! "name" = None →
     tool_chain tools model_output = Raise (KeyError (PStr "name"))).
Proof.
  split; [|split].
  - split.
    + intros [chain Hrun]. unfold tool_chain, subscript, getitem in Hrun.
      destruct model_output as [| | | | |?|d]; try discriminate Hrun.
      destruct (d !! "name") as [key|] eqn:Hname; [|discriminate Hrun]. simpl in Hrun.
      destruct key as [| | | |n| |]; try discriminate Hrun. simpl in Hrun.
      destruct (tool_dict tools !! n) as [t|] eqn:Ht; [|discriminate Hrun].
      exists d, n. repeat split; [done|]. apply tool_dict_registered. by eexists.
    + intros (d & n & -> & Hname & Hreg). rewrite (tool_chain_unfold _ _ _ Hname).
      apply tool_dict_registered in Hreg as [t Ht]. rewrite Ht. by eexists.
  - intros Hnot. unfold tool_chain, subscript.
    destruct model_output; simpl; try (by eexists). by destruct (Hnot d).
  - intros d -> Hname. unfold tool_chain, subscript, getitem. by rewrite Hname.
Qed.

Lemma tool_chain_returns_iff_witness :
  (∃ chain, tool_chain tools_prompting (PDict model_output_add) = Return chain) ∧
  tool_chain tools_prompting (PDict (dict [("arguments", PDict ∅)]))
  = Raise (KeyError (PStr "name")).
Proof.
  split.
  - destruct (tool_chain_returns_iff tools_prompting (PDict model_output_add)) as [[_ Hback] _].
    apply Hback. exists model_output_add, "add". split; [reflexivity|]. split; [reflexivity|].
    exists add. split; [apply elem_of_cons; by left | reflexivity].
  - destruct (tool_chain_returns_iff tools_prompting (PDict (dict [("arguments", PDict ∅)])))
      as (_ & _ & Hmissing).
    apply (Hmissing (dict [("arguments", PDict ∅)])); reflexivity.
Defined.

(** X2. Dispatch does not look at the arguments. With distinct tool names,
    for a model output naming the tool [t], [tool_chain] returns a chain
    whether or not ["arguments"] is there; running the chain gives what
    [t] gives on the ["arguments"], and raises the [KeyError] of
    ["arguments"] when the key is missing. *)
Theorem run_tool_chain_invokes (tools : list Tool) (t : Tool) (d : gmap string PyVal) :
  NoDup (name <$> tools) → t ∈ tools → d !! "name" = Some (PStr (name t)) →
  (∃ chain, tool_chain tools (PDict d) = Return chain) ∧
  (∀ args, d !! "arguments" = Some args → run_tool_chain tools (PDict d) = invoke t args) ∧
  (d !! "arguments" = None →
     run_tool_chain tools (PDict d) = Raise (KeyError (PStr "arguments"))).
Proof.
  intros Hnodup Hin Hname.
  pose proof (tool_dict_lookup_NoDup tools t Hnodup Hin) as Ht.
  unfold run_tool_chain. rewrite (tool_chain_unfold _ _ _ Hname), Ht. simpl.
  split; [by eexists|].
  unfold pipe, itemgetter, subscript, getitem.
  split.
  - intros args Hargs. by rewrite Hargs.
  - intros Hargs. by rewrite Hargs.
Qed.

Lemma run_tool_chain_invokes_witness :
  run_tool_chain tools_prompting (PDict model_output_add) = Return (PInt 1135) ∧
  run_tool_chain tools_prompting (PDict (dict [("name", PStr "add")]))
  = Raise (KeyError (PStr "arguments")).
Proof.
  assert (Hnodup : NoDup (name <$> tools_prompting))
    by (apply (bool_decide_unpack _); vm_compute; exact I).
  assert (Hin : add ∈ tools_prompting) by (apply elem_of_cons; by left).
  split.
  - destruct (run_tool_chain_invokes tools_prompting add model_output_add Hnodup Hin eq_refl)
      as (_ & Hrun & _).
    rewrite (Hrun _ eq_refl). vm_compute. reflexivity.
  - destruct (run_tool_chain_invokes tools_prompting add (dict [("name", PStr "add")])
                Hnodup Hin eq_refl) as (_ & _ & Hmissing).
    apply Hmissing. reflexivity.
Defined.

(** X3. With distinct tool names the order of [tools] does not matter: a
    permutation of the list builds the same tool map, so [tool_chain] and
    [call_tools] behave the same for [[add, exponentiate, multiply]] as for
    [[multiply, exponentiate, add]]. *)
Theorem dispatch_permutation (tools tools' : list Tool) :
  NoDup (name <$> tools) → tools ≡ₚ tools' →
  tool_dict tools' = tool_dict tools ∧
  (∀ model_output, tool_chain tools' model_output = tool_chain tools model_output) ∧
  (∀ msg, call_tools tools' msg = call_tools tools msg).
Proof.
  intros Hnodup Hperm.
  assert (Hnodup' : NoDup (name <$> tools')) by (by rewrite <- Hperm).
  assert (Hdict : tool_dict tools' = tool_dict tools).
  { apply map_eq. intros n.
    destruct (tool_dict tools !! n) as [t|] eqn:Ht.
    - destruct (tool_dict_lookup_Some _ _ _ Ht) as [Hin <-].
      apply tool_dict_lookup_NoDup; [done | by rewrite <- Hperm].
    - apply tool_dict_unregistered. apply tool_dict_unregistered in Ht.
      intros (t & Hin & Hname). apply Ht. exists t. by rewrite Hperm. }
  split; [done|]. split.
  - intros mo. unfold tool_chain. by rewrite Hdict.
  - intros msg. unfold call_tools. by rewrite Hdict.
Qed.

Lemma dispatch_permutation_witness :
  call_tools tools_prompting msg_parallel = call_tools tools_parallel msg_parallel.
Proof.
  destruct (dispatch_permutation tools_parallel tools_prompting) as (_ & _ & Hcalls).
  - apply (bool_decide_unpack _). vm_compute. exact I.
  - unfold tools_parallel, tools_prompting.
    etrans; [apply Permutation_swap|].
    etrans; [apply Permutation_skip, Permutation_swap|].
    apply Permutation_swap.
  - apply Hcalls.
Defined.

(** X4. [call_tools] raises exactly the exception of the first tool call
    whose body raises; the calls after it are not run. A call naming an
    unregistered tool raises the [KeyError] of that name, a call without
    ["args"] the [KeyError] of ["args"]. *)
Theorem call_tools_first_failure (tools : list Tool) (msg : Message) (e : Exn) :
  (call_tools tools msg = Raise e ↔
   ∃ before tc rest,
     tool_calls msg = before ++ tc :: rest ∧
     (∀ x, x ∈ before → ∃ y, call_tool tools x = Return y) ∧
     call_tool tools tc = Raise e) ∧
  (∀ tc n, tc !! "name" = Some (PStr n) → ¬ registered tools n →
     call_tool tools tc = Raise (KeyError (PStr n))) ∧
  (∀ tc n, tc !! "name" = Some (PStr n) → registered tools n → tc !! "args" = None →
     call_tool tools tc = Raise (KeyError (PStr "args"))).
Proof.
  rewrite call_tools_loop. split; [split|split].
  - intros Hrun.
    destruct (for_each_Raise_inv _ _ _ Hrun) as (before & tc & rest & ys & Hsplit & Hbefore & Hfail).
    exists before, tc, rest. repeat split; [done| |done].
    intros x Hin. apply for_each_Return_inv in Hbefore.
    apply list_elem_of_lookup in Hin as [i Hi].
    destruct (Forall2_lookup_l _ _ _ _ _ Hbefore Hi) as (y & _ & Hy). by exists y.
  - intros (before & tc & rest & -> & Hbefore & Hfail).
    destruct (for_each_Forall2 (λ _ _, True) (call_tool tools) before) as (ys & Hys & _).
    { intros x Hin. destruct (Hbefore x Hin) as [y Hy]. by exists y. }
    by apply (for_each_raise _ before tc rest ys e).
  - intros tc n Hname Hun. apply tool_dict_unregistered in Hun.
    unfold call_tool, getitem, tool_map_getitem. rewrite Hname. simpl. by rewrite Hun.
  - intros tc n Hname Hreg Hargs. apply tool_dict_registered in Hreg as [t Ht].
    unfold call_tool, getitem, tool_map_getitem. rewrite Hname. simpl.
    rewrite Ht. simpl. by rewrite Hargs.
Qed.

Lemma call_tools_first_failure_witness :
  call_tools tools_parallel
    (mkMessage ai ""
       (tool_calls msg_parallel
        ++ tool_call "divide" [("first_int", PInt 6); ("second_int", PInt 3)] "call_1"
        :: tool_calls msg_zero_power))
  = Raise (KeyError (PStr "divide")).
Proof.
  destruct (call_tools_first_failure tools_parallel
              (mkMessage ai ""
                 (tool_calls msg_parallel
                  ++ tool_call "divide" [("first_int", PInt 6); ("second_int", PInt 3)] "call_1"
                  :: tool_calls msg_zero_power))
              (KeyError (PStr "divide"))) as [[_ Hback] _].
  apply Hback.
  exists (tool_calls msg_parallel),
    (tool_call "divide" [("first_int", PInt 6); ("second_int", PInt 3)] "call_1"),
    (tool_calls msg_zero_power).
  split; [reflexivity|]. split; [|vm_compute; reflexivity].
  intros x Hin. simpl in Hin.
  repeat (apply elem_of_cons in Hin as [->|Hin]);
    try (eexists; vm_compute; reflexivity).
  by apply elem_of_nil in Hin.
Defined.

(** X5. Tool calls do not influence each other: the result for a list of
    tool calls is the result for its front part followed by the result for
    the rest, and an exception of the front part comes first. *)
Theorem call_tools_app (tools : list Tool) (ty : MessageType) (text : string)
    (front back : list (gmap string PyVal)) :
  call_tools tools (mkMessage ty text (front ++ back))
  = (entries_front <- call_tools tools (mkMessage ty text front) ;;
     entries_back <- call_tools tools (mkMessage ty text back) ;;
     Return (entries_front ++ entries_back)).
Proof. rewrite !call_tools_loop. simpl tool_calls. apply for_each_app. Qed.

Lemma call_tool_again (tools : list Tool) (tc entry : gmap string PyVal) :
  call_tool tools tc = Return entry → call_tool tools entry = Return entry.
Proof.
  unfold call_tool, getitem. intros Hrun.
  destruct (tc !! "name") as [key|] eqn:Hname; [|done]. simpl in Hrun.
  destruct (tool_map_getitem (tool_dict tools) key) as [chosen|] eqn:Hmap; [|done].
  simpl in Hrun.
  destruct (tc !! "args") as [args|] eqn:Hargs; [|done]. simpl in Hrun.
  destruct (invoke chosen args) as [output|] eqn:Hinv; [|done]. simpl in Hrun.
  injection Hrun as <-.
  rewrite !lookup_insert_ne by done. rewrite Hname. simpl. rewrite Hmap. simpl.
  rewrite Hargs. simpl. rewrite Hinv. simpl. by rewrite insert_insert_eq.
Qed.

(** X6. Feeding the entries [call_tools] returned back to it gives the
    same entries: ["output"] is no input of the loop, and a second run
    stores the same outputs over the first ones. *)
Theorem call_tools_again (tools : list Tool) (msg : Message)
    (entries : list (gmap string PyVal)) :
  call_tools tools msg = Return entries →
  call_tools tools (mkMessage (type msg) (content msg) entries) = Return entries.
Proof.
  rewrite !call_tools_loop. simpl tool_calls. intros Hrun.
  apply for_each_Return_inv in Hrun.
  induction Hrun as [|tc entry tcs entries' Hhead _ IH]; [done|].
  simpl. rewrite (call_tool_again _ _ _ Hhead). simpl. by rewrite IH.
Qed.

Lemma call_tools_again_witness :
  ∃ entries,
    call_tools tools_parallel msg_parallel = Return entries ∧
    call_tools tools_parallel (mkMessage ai "" entries) = Return entries.
Proof.
  destruct (call_tools tools_parallel msg_parallel) as [entries|] eqn:Hrun;
    [|vm_compute in Hrun; discriminate Hrun].
  exists entries. split; [reflexivity|].
  exact (call_tools_again tools_parallel msg_parallel entries Hrun).
Defined.

(** X7. The two notebooks dispatch alike. A tool call and a model output
    with the same ["name"], the one holding under ["args"] what the other
    holds under ["arguments"], give the same output or raise the same
    exception, whether run by [call_tools] or through [tool_chain]. *)
Theorem call_tools_agrees_with_tool_chain (tools : list Tool)
    (tool_call model_output : gmap string PyVal) (key args : PyVal) :
  tool_call !! "name" = Some key → model_output !! "name" = Some key →
  tool_call !! "args" = Some args → model_output !! "arguments" = Some args →
  call_tools tools (mkMessage ai "" [tool_call])
  = (output <- run_tool_chain tools (PDict model_output) ;;
     Return [<["output" := output]> tool_call]).
Proof.
  intros Hname Hname' Hargs Hargs'.
  rewrite call_tools_loop. simpl tool_calls.
  unfold for_each, call_tool, run_tool_chain, tool_chain, subscript, getitem.
  rewrite Hname, Hname'. simpl.
  destruct (tool_map_getitem (tool_dict tools) key) as [chosen|]; [|done]. simpl.
  unfold pipe, itemgetter, subscript, getitem. rewrite Hargs, Hargs'. simpl.
  by destruct (invoke chosen args).
Qed.

Lemma call_tools_agrees_with_tool_chain_witness :
  call_tools tools_prompting
    (mkMessage ai "" [tool_call "add" [("first_int", PInt 3); ("second_int", PInt 1132)] "call_0"])
  = Return [<["output" := PInt 1135]>
              (tool_call "add" [("first_int", PInt 3); ("second_int", PInt 1132)] "call_0")].
Proof.
  rewrite (call_tools_agrees_with_tool_chain tools_prompting
             (tool_call "add" [("first_int", PInt 3); ("second_int", PInt 1132)] "call_0")
             model_output_add (PStr "add")
             (PDict (dict [("first_int", PInt 3); ("second_int", PInt 1132)]))
             eq_refl eq_refl eq_refl eq_refl).
  reflexivity.
Defined.

End ToolFacts.

(** * Facts about the chat history *)

Section MemoryFacts.

Import Memory.

(** ** List objects *)

Lemma fresh_list_unused (s : State) : lists s !! fresh (dom (lists s)) = None.
Proof. apply not_elem_of_dom, is_fresh. Qed.

Lemma deref_insert (L : gmap nat (list Message)) (H : gmap string nat)
    (C : list (list Message)) (l l' : nat) (v : list Message) :
  deref (mkState (<[l := v]> L) H C) l' = if decide (l = l') then v else default [] (L !! l').
Proof.
  unfold deref. simpl. destruct (decide (l = l')) as [->|Hne].
  - by rewrite lookup_insert_eq.
  - by rewrite lookup_insert_ne.
Qed.

(** Allocating an empty list changes the contents of no list. *)
Lemma deref_alloc (s : State) (H : gmap string nat) (C : list (list Message)) (l' : nat) :
  deref (mkState (<[fresh (dom (lists s)) := []]> (lists s)) H C) l' = deref s l'.
Proof.
  rewrite deref_insert. destruct (decide _) as [<-|]; [|done].
  unfold deref. by rewrite fresh_list_unused.
Qed.

(** ** Running a sequence of statements *)

Lemma bind_Return {A B : Type} (c : M A) (k : A → M B) (s s' : State) (a : A) :
  c s = (Return a, s') → bind c k s = k a s'.
Proof. intros H. simpl. by rewrite H. Qed.

Lemma bind_Raise {A B : Type} (c : M A) (k : A → M B) (s s' : State) (e : Exn) :
  c s = (Raise e, s') → bind c k s = (Raise e, s').
Proof. intros H. simpl. by rewrite H. Qed.

Lemma len_run (l : nat) (s : State) :
  len l s = (Return (Z.of_nat (length (deref s l))), s).
Proof. reflexivity. Qed.

Lemma slice_run (l : nat) (start : Z) (s : State) :
  slice l start s = (Return (slice_from (deref s l) start), s).
Proof. reflexivity. Qed.

Ltac step H := rewrite (bind_Return _ _ _ _ _ H); cbv beta.

(** ** The history primitives, through [read] *)

Lemma messages_spec (session : string) (s : State) :
  ∃ l, messages session s = (Return l, exec (messages session) s) ∧
       histories (exec (messages session) s) !! session = Some l ∧
       deref (exec (messages session) s) l = read session s ∧
       (∀ l', deref (exec (messages session) s) l' = deref s l') ∧
       (∀ k, read k (exec (messages session) s) = read k s) ∧
       calls (exec (messages session) s) = calls s.
Proof.
  unfold exec, messages, read. destruct (histories s !! session) as [l|] eqn:Hs; simpl.
  - exists l. rewrite Hs. by repeat split.
  - exists (fresh (dom (lists s))). rewrite lookup_insert_eq.
    assert (Hd : ∀ l', deref (mkState (<[fresh (dom (lists s)) := []]> (lists s))
                                 (<[session := fresh (dom (lists s))]> (histories s))
                                 (calls s)) l' = deref s l')
      by (intros; apply deref_alloc).
    repeat split; try done.
    + rewrite Hd. unfold deref. by rewrite fresh_list_unused.
    + intros k. destruct (decide (session = k)) as [<-|Hne].
      * rewrite lookup_insert_eq, Hs, Hd. unfold deref. by rewrite fresh_list_unused.
      * rewrite lookup_insert_ne by done. destruct (histories s !! k); [apply Hd | done].
Qed.

Lemma add_message_spec (session : string) (m : Message) (s : State) :
  add_message session m s = (Return tt, exec (add_message session m) s) ∧
  read session (exec (add_message session m) s) = read session s ++ [m] ∧
  calls (exec (add_message session m) s) = calls s.
Proof.
  destruct (messages_spec session s) as (l & Hrun & Hbound & Hl & _ & _ & Hcalls).
  unfold exec, add_message. simpl. rewrite Hrun. simpl.
  set (s1 := exec (messages session) s) in *.
  repeat split; [|done].
  unfold read. simpl. rewrite Hbound, deref_insert.
  destruct (decide (l = l)); [|done]. by rewrite Hl.
Qed.

Lemma for_add_message_spec (session : string) (ms : list Message) (s : State) :
  for_ ms (add_message session) s = (Return tt, exec (for_ ms (add_message session)) s) ∧
  read session (exec (for_ ms (add_message session)) s) = read session s ++ ms ∧
  calls (exec (for_ ms (add_message session)) s) = calls s.
Proof.
  revert s. induction ms as [|m ms IH]; intros s.
  - unfold exec. simpl. by rewrite app_nil_r.
  - destruct (add_message_spec session m s) as (Hrun & Hread & Hcalls).
    destruct (IH (exec (add_message session m) s)) as (Hrun' & Hread' & Hcalls').
    unfold exec in *. simpl. rewrite Hrun. simpl. rewrite Hrun'. simpl.
    split; [done|]. rewrite Hread', Hread, Hcalls', Hcalls, <- app_assoc. done.
Qed.

Lemma clear_spec (session : string) (s : State) :
  clear session s = (Return tt, exec (clear session) s) ∧
  read session (exec (clear session) s) = [] ∧
  (∀ l, deref (exec (clear session) s) l = deref s l) ∧
  (∀ k, k ≠ session → read k (exec (clear session) s) = read k s) ∧
  calls (exec (clear session) s) = calls s.
Proof.
  unfold exec, clear. simpl.
  assert (Hd : ∀ l, deref (mkState (<[fresh (dom (lists s)) := []]> (lists s))
                              (<[session := fresh (dom (lists s))]> (histories s))
                              (calls s)) l = deref s l)
    by (intros; apply deref_alloc).
  repeat split; try done.
  - unfold read. simpl. rewrite lookup_insert_eq, Hd. unfold deref.
    by rewrite fresh_list_unused.
  - intros k Hne. unfold read. simpl. rewrite lookup_insert_ne by done.
    destruct (histories s !! k); [apply Hd | done].
Qed.

Lemma ChatMessageHistory_spec (session : string) (s : State) :
  ChatMessageHistory session s = clear session s.
Proof. reflexivity. Qed.

Lemma slice_from_last_two {A : Type} (xs : list A) :
  slice_from xs (-2) = drop (length xs - 2) xs.
Proof. unfold slice_from. simpl. f_equal. lia. Qed.

(** ** Trimming *)

(** C1, as amended. [trim_messages] keeps two messages, the literal [2] of
    its body: when the session's sequence is longer than two, it is
    replaced with exactly its last two elements in their original order;
    when it has two elements or fewer, it is left unchanged. *)
Theorem trim_messages_keeps_last_two (session : string) (chain_input : PyVal) (s : State) :
  ((2 < length (read session s))%nat →
     outcome (trim_messages session chain_input) s = Return true ∧
     read session (exec (trim_messages session chain_input) s)
     = drop (length (read session s) - 2) (read session s) ∧
     length (read session (exec (trim_messages session chain_input) s)) = 2%nat ∧
     ∃ dropped,
       read session s = dropped ++ read session (exec (trim_messages session chain_input) s)) ∧
  ((length (read session s) ≤ 2)%nat →
     outcome (trim_messages session chain_input) s = Return false ∧
     read session (exec (trim_messages session chain_input) s) = read session s).
Proof.
  destruct (messages_spec session s) as (l & Hrun & _ & Hl & _ & Hread & _).
  set (s1 := exec (messages session) s) in *.
  unfold outcome, exec, trim_messages.
  step Hrun. step (len_run l s1). rewrite Hl.
  split; intros Hlen.
  - destruct (Z.leb_spec (Z.of_nat (length (read session s))) 2) as [Hle|_]; [lia|].
    destruct (clear_spec session s1) as (Hclear & Hempty & Hkeep & _ & _).
    set (s2 := exec (clear session) s1) in *.
    step Hclear. step (slice_run l (-2) s2).
    rewrite Hkeep, Hl, slice_from_last_two.
    destruct (for_add_message_spec session
                (drop (length (read session s) - 2) (read session s)) s2)
      as (Hloop & Hkept & _).
    step Hloop. simpl. rewrite Hkept, Hempty. simpl.
    repeat split.
    + rewrite length_drop. lia.
    + exists (take (length (read session s) - 2) (read session s)).
      by rewrite take_drop.
  - destruct (Z.leb_spec (Z.of_nat (length (read session s))) 2) as [_|Hgt]; [|lia].
    simpl. by rewrite Hread.
Qed.

Lemma trim_messages_keeps_last_two_witness :
  (2 < length (read "unused" preloaded))%nat ∧
  read "unused" (exec (trim_messages "unused" PNone) preloaded)
  = [HumanMessage "How are you today?"; AIMessage "Fine thanks!"].
Proof.
  split; [vm_compute; lia|].
  destruct (trim_messages_keeps_last_two "unused" PNone preloaded) as [Hlong _].
  destruct Hlong as (_ & Hkept & _); [vm_compute; lia|].
  rewrite Hkept. vm_compute. reflexivity.
Defined.

(** C1, as stated for every [n], fails. On the four messages of cell 10
    the result is not the last one (n = 1), not the last three (n = 3),
    not empty (n = 0), and the sequence is not left alone although it is
    no longer than four (n = 4). *)
Lemma trim_messages_keep_is_fixed :
  length (read "unused" preloaded) = 4%nat ∧
  read "unused" (exec (trim_messages "unused" PNone) preloaded)
  ≠ drop (4 - 1) (read "unused" preloaded) ∧
  read "unused" (exec (trim_messages "unused" PNone) preloaded)
  ≠ drop (4 - 3) (read "unused" preloaded) ∧
  read "unused" (exec (trim_messages "unused" PNone) preloaded) ≠ [] ∧
  read "unused" (exec (trim_messages "unused" PNone) preloaded)
  ≠ read "unused" preloaded.
Proof.
  split; [vm_compute; reflexivity|].
  repeat split; intros H; vm_compute in H; discriminate H.
Qed.

(** ** The model call *)

Lemma read_calls (s : State) (C : list (list Message)) (k : string) :
  read k (mkState (lists s) (histories s) C) = read k s.
Proof. reflexivity. Qed.

Lemma chat_invoke_run (chat : nat → list Message → Result Message)
    (p : list Message) (s : State) :
  chat_invoke chat p s
  = (chat (length (calls s)) p, mkState (lists s) (histories s) (calls s ++ [p])).
Proof. reflexivity. Qed.

(** ** Summarizing *)

(** C2. On a non-empty session, when the summarization chain returns a
    message for the stored sequence, [summarize_messages] leaves a sequence
    of length one whose sole element is that message; on an empty session
    it changes nothing and the model is not called. *)
Theorem summarize_messages_collapses (chat : nat → list Message → Result Message)
    (session : string) (chain_input : PyVal) (s : State) :
  (read session s ≠ [] →
   ∀ summary,
     chat (length (calls s)) (summarization_prompt (read session s)) = Return summary →
     outcome (summarize_messages chat session chain_input) s = Return true ∧
     read session (exec (summarize_messages chat session chain_input) s) = [summary] ∧
     length (read session (exec (summarize_messages chat session chain_input) s)) = 1%nat ∧
     calls (exec (summarize_messages chat session chain_input) s)
     = calls s ++ [summarization_prompt (read session s)]) ∧
  (read session s = [] →
     outcome (summarize_messages chat session chain_input) s = Return false ∧
     read session (exec (summarize_messages chat session chain_input) s) = [] ∧
     calls (exec (summarize_messages chat session chain_input) s) = calls s).
Proof.
  destruct (messages_spec session s) as (l & Hrun & _ & Hl & _ & Hread & Hcalls).
  set (s1 := exec (messages session) s) in *.
  split.
  - intros Hne summary Hchat.
    set (s2 := mkState (lists s1) (histories s1)
                 (calls s1 ++ [summarization_prompt (read session s)])).
    destruct (clear_spec session s2) as (Hclear & Hempty & _ & _ & Hc3).
    set (s3 := exec (clear session) s2) in *.
    destruct (add_message_spec session summary s3) as (Hadd & Hsum & Hc4).
    set (s4 := exec (add_message session summary) s3) in *.
    assert (Hall : summarize_messages chat session chain_input s = (Return true, s4)).
    { unfold summarize_messages. step Hrun. step (len_run l s1). rewrite Hl.
      replace (Z.of_nat (length (read session s)) =? 0) with false
        by (symmetry; apply Z.eqb_neq; destruct (read session s); simpl; [done | lia]).
      rewrite bind_Return with (a := summary) (s' := s2).
      2:{ unfold summarization_chain_invoke. rewrite <- Hcalls in Hchat.
          by rewrite Hl, chat_invoke_run, Hchat. }
      step Hclear. step Hadd. reflexivity. }
    unfold outcome, exec. rewrite Hall. simpl.
    rewrite Hsum, Hempty, Hc4, Hc3. simpl. by rewrite Hcalls.
  - intros Hempty.
    assert (Hall : summarize_messages chat session chain_input s = (Return false, s1)).
    { unfold summarize_messages. step Hrun. step (len_run l s1).
      rewrite Hl, Hempty. reflexivity. }
    unfold outcome, exec. rewrite Hall. simpl. by rewrite Hread, Hcalls.
Qed.

Lemma summarize_messages_collapses_witness :
  read "unused" preloaded ≠ [] ∧
  read "unused" (exec (summarize_messages nemo_chat "unused" PNone) preloaded)
  = [AIMessage "Your name is Nemo."].
Proof.
  assert (Hne : read "unused" preloaded ≠ [])
    by (intros H; vm_compute in H; discriminate H).
  split; [exact Hne|].
  destruct (summarize_messages_collapses nemo_chat "unused" PNone preloaded) as [Hfull _].
  destruct (Hfull Hne (AIMessage "Your name is Nemo.") eq_refl) as (_ & Hone & _).
  exact Hone.
Defined.

(** C3. If the summarization chain raises on the stored sequence, every
    session's sequence after [summarize_messages] is the sequence before
    it, and when the session is non-empty, so that the chain is called,
    the exception comes out of [summarize_messages]. *)
Theorem summarize_messages_failure (chat : nat → list Message → Result Message)
    (session : string) (chain_input : PyVal) (s : State) (e : Exn) :
  chat (length (calls s)) (summarization_prompt (read session s)) = Raise e →
  (∀ k, read k (exec (summarize_messages chat session chain_input) s) = read k s) ∧
  (read session s ≠ [] →
     outcome (summarize_messages chat session chain_input) s = Raise e).
Proof.
  intros Hchat.
  destruct (messages_spec session s) as (l & Hrun & _ & Hl & _ & Hread & Hcalls).
  set (s1 := exec (messages session) s) in *.
  destruct (read session s) as [|m stored] eqn:Hstored.
  - assert (Hall : summarize_messages chat session chain_input s = (Return false, s1)).
    { unfold summarize_messages. step Hrun. step (len_run l s1).
      rewrite Hl. reflexivity. }
    unfold outcome, exec. rewrite Hall. simpl. split; [|done].
    intros k. rewrite Hread. done.
  - set (s2 := mkState (lists s1) (histories s1)
                 (calls s1 ++ [summarization_prompt (m :: stored)])).
    assert (Hall : summarize_messages chat session chain_input s = (Raise e, s2)).
    { unfold summarize_messages. step Hrun. step (len_run l s1). rewrite Hl.
      replace (Z.of_nat (length (m :: stored)) =? 0) with false
        by (symmetry; apply Z.eqb_neq; simpl; lia).
      apply bind_Raise.
      unfold summarization_chain_invoke. rewrite <- Hcalls in Hchat.
      by rewrite Hl, chat_invoke_run, Hchat. }
    unfold outcome, exec. rewrite Hall. simpl. split; [|done].
    intros k. unfold s2. rewrite read_calls. apply Hread.
Qed.

Lemma summarize_messages_failure_witness :
  outcome (summarize_messages failing_chat "unused" PNone) preloaded
  = Raise (ModelError "Request timed out.") ∧
  read "unused" (exec (summarize_messages failing_chat "unused" PNone) preloaded)
  = read "unused" preloaded.
Proof.
  destruct (summarize_messages_failure failing_chat "unused" PNone preloaded
              (ModelError "Request timed out.") eq_refl) as [Hsame Hraise].
  split; [|apply Hsame].
  apply Hraise. intros H. vm_compute in H. discriminate H.
Defined.

(** ** A manual turn *)

(** The state a manual turn is in when the model is called, and what the
    turn does from there on either answer of the model. *)
Lemma manual_turn_run (chat : nat → list Message → Result Message)
    (session input : string) (s : State) :
  ∃ s2 : State,
    read session s2 = read session s ++ [HumanMessage input] ∧
    calls s2 = calls s ∧
    (∀ e, chat (length (calls s)) (prompt (read session s ++ [HumanMessage input])) = Raise e →
          manual_turn chat session input s
          = (Raise e, mkState (lists s2) (histories s2)
                        (calls s2 ++ [prompt (read session s ++ [HumanMessage input])]))) ∧
    (∀ response,
       chat (length (calls s)) (prompt (read session s ++ [HumanMessage input])) = Return response →
       outcome (manual_turn chat session input) s = Return tt ∧
       read session (exec (manual_turn chat session input) s)
       = read session s ++ [HumanMessage input; response]).
Proof.
  destruct (add_message_spec session (HumanMessage input) s) as (Hadd & Hreq & Hc1).
  set (s1 := exec (add_message session (HumanMessage input)) s) in *.
  destruct (messages_spec session s1) as (l & Hrun & _ & Hl & _ & Hread & Hc2).
  set (s2 := exec (messages session) s1) in *.
  exists s2. rewrite Hread, Hreq, Hc2, Hc1. split; [done|]. split; [done|].
  set (s3 := mkState (lists s2) (histories s2)
               (calls s ++ [prompt (read session s ++ [HumanMessage input])])).
  assert (Hinvoke : chain_invoke chat l s2
                    = (chat (length (calls s)) (prompt (read session s ++ [HumanMessage input])), s3)).
  { unfold chain_invoke. rewrite chat_invoke_run, Hl, Hreq, Hc2, Hc1. reflexivity. }
  split.
  - intros e Hchat. unfold manual_turn, add_user_message.
    step Hadd. step Hrun. apply bind_Raise. by rewrite Hinvoke, Hchat.
  - intros response Hchat.
    destruct (add_message_spec session response s3) as (Hadd' & Hresp & _).
    set (s4 := exec (add_message session response) s3) in *.
    assert (Hall : manual_turn chat session input s = (Return tt, s4)).
    { unfold manual_turn, add_user_message, add_ai_message.
      step Hadd. step Hrun. rewrite bind_Return with (a := response) (s' := s3).
      - exact Hadd'.
      - by rewrite Hinvoke, Hchat. }
    unfold outcome, exec. rewrite Hall. simpl. split; [done|].
    rewrite Hresp. unfold s3. rewrite read_calls, Hread, Hreq, <- app_assoc. done.
Qed.

(** C4. A manual turn with no compaction, whose model call returns
    [response], leaves the prior history followed by the input message and
    then the response; from the one message "Hi I'm Nemo", the input
    "What's my name?" and the answer "Your name is Nemo." give exactly
    the three-message log of the example. *)
Theorem manual_turn_appends (chat : nat → list Message → Result Message) (session : string) :
  (∀ (s : State) (input : string) (response : Message),
     chat (length (calls s)) (prompt (read session s ++ [HumanMessage input])) = Return response →
     outcome (manual_turn chat session input) s = Return tt ∧
     read session (exec (manual_turn chat session input) s)
     = read session s ++ [HumanMessage input; response]) ∧
  (∀ s : State,
     read session s = [HumanMessage "Hi I'm Nemo"] →
     chat (length (calls s))
          (prompt [HumanMessage "Hi I'm Nemo"; HumanMessage "What's my name?"])
     = Return (AIMessage "Your name is Nemo.") →
     read session (exec (manual_turn chat session "What's my name?") s)
     = [HumanMessage "Hi I'm Nemo"; HumanMessage "What's my name?";
        AIMessage "Your name is Nemo."]).
Proof.
  split.
  - intros s input response Hchat.
    destruct (manual_turn_run chat session input s) as (s2 & _ & _ & _ & Hok).
    by apply Hok.
  - intros s Hnemo Hchat.
    destruct (manual_turn_run chat session "What's my name?" s) as (s2 & _ & _ & _ & Hok).
    rewrite Hnemo in Hok. destruct (Hok _ Hchat) as [_ Hlog]. exact Hlog.
Qed.

Lemma manual_turn_appends_witness :
  read "unused" nemo_state = [HumanMessage "Hi I'm Nemo"] ∧
  read "unused" (exec (manual_turn nemo_chat "unused" "What's my name?") nemo_state)
  = [HumanMessage "Hi I'm Nemo"; HumanMessage "What's my name?";
     AIMessage "Your name is Nemo."].
Proof.
  assert (Hnemo : read "unused" nemo_state = [HumanMessage "Hi I'm Nemo"])
    by (vm_compute; reflexivity).
  split; [exact Hnemo|].
  destruct (manual_turn_appends nemo_chat "unused") as [_ Hexample].
  exact (Hexample nemo_state Hnemo eq_refl).
Defined.

(** C5, as amended. If the model call of a manual turn raises, the
    exception comes out of the turn and the session's sequence is the
    pre-turn sequence followed by the request message alone: the request is
    appended before the model is called and nothing takes it back. *)
Theorem manual_turn_failure (chat : nat → list Message → Result Message)
    (session input : string) (s : State) (e : Exn) :
  chat (length (calls s)) (prompt (read session s ++ [HumanMessage input])) = Raise e →
  outcome (manual_turn chat session input) s = Raise e ∧
  read session (exec (manual_turn chat session input) s)
  = read session s ++ [HumanMessage input].
Proof.
  intros Hchat.
  destruct (manual_turn_run chat session input s) as (s2 & Hreq & _ & Hfail & _).
  unfold outcome, exec. rewrite (Hfail e Hchat). simpl. split; [done|].
  by rewrite read_calls.
Qed.

Lemma manual_turn_failure_witness :
  outcome (manual_turn failing_chat "unused" "What's my name?") nemo_state
  = Raise (ModelError "Request timed out.") ∧
  read "unused" (exec (manual_turn failing_chat "unused" "What's my name?") nemo_state)
  = read "unused" nemo_state ++ [HumanMessage "What's my name?"].
Proof.
  exact (manual_turn_failure failing_chat "unused" "What's my name?" nemo_state
           (ModelError "Request timed out.") eq_refl).
Defined.

(** C5, as stated, fails: after a turn whose model call timed out, the
    stored sequence is neither the pre-turn sequence nor a completed turn;
    it holds the request without a response. *)
Lemma manual_turn_failure_leaves_request :
  outcome (manual_turn failing_chat "unused" "What's my name?") nemo_state
  = Raise (ModelError "Request timed out.") ∧
  read "unused" (exec (manual_turn failing_chat "unused" "What's my name?") nemo_state)
  = [HumanMessage "Hi I'm Nemo"; HumanMessage "What's my name?"] ∧
  read "unused" (exec (manual_turn failing_chat "unused" "What's my name?") nemo_state)
  ≠ read "unused" nemo_state ∧
  ∀ response,
    read "unused" (exec (manual_turn failing_chat "unused" "What's my name?") nemo_state)
    ≠ read "unused" nemo_state ++ [HumanMessage "What's my name?"; response].
Proof.
  split; [vm_compute; reflexivity|].
  split; [vm_compute; reflexivity|].
  split.
  - intros H. vm_compute in H. discriminate H.
  - intros response H.
    apply (f_equal length) in H. rewrite length_app in H.
    vm_compute in H. discriminate H.
Qed.

(** ** Appending, reading and clearing *)

(** C6. On a fresh session, whether newly constructed or never seen, any
    sequence of appended messages is read back in call order; an unseen
    key reads as the empty sequence; reading hands out the stored sequence
    and changes the sequence of no session, so that a second read gives
    the same. *)
Theorem read_returns_appended_messages :
  (∀ (s : State) (session : string) (ms : list Message),
     outcome (ChatMessageHistory session ;;; for_ ms (add_message session)) s = Return tt ∧
     read session (exec (ChatMessageHistory session ;;; for_ ms (add_message session)) s) = ms) ∧
  (∀ (s : State) (session : string),
     histories s !! session = None →
     read session s = [] ∧
     ∀ ms, outcome (for_ ms (add_message session)) s = Return tt ∧
           read session (exec (for_ ms (add_message session)) s) = ms) ∧
  (∀ (s : State) (session : string),
     ∃ l, outcome (messages session) s = Return l ∧
          deref (exec (messages session) s) l = read session s ∧
          (∀ k, read k (exec (messages session) s) = read k s) ∧
          outcome (messages session ;;; messages session) s = Return l ∧
          deref (exec (messages session ;;; messages session) s) l = read session s).
Proof.
  split; [|split].
  - intros s session ms.
    destruct (clear_spec session s) as (Hnew & Hempty & _).
    rewrite <- ChatMessageHistory_spec in Hnew.
    destruct (for_add_message_spec session ms (exec (clear session) s)) as (Hloop & Hread & _).
    unfold outcome, exec at 1. step Hnew. rewrite Hloop. simpl.
    by rewrite Hread, Hempty.
  - intros s session Hunseen.
    assert (Hempty : read session s = []) by (unfold read; by rewrite Hunseen).
    split; [done|]. intros ms.
    destruct (for_add_message_spec session ms s) as (Hloop & Hread & _).
    unfold outcome. rewrite Hloop. simpl. by rewrite Hread, Hempty.
  - intros s session.
    destruct (messages_spec session s) as (l & Hrun & Hbound & Hl & _ & Hread & _).
    set (s1 := exec (messages session) s) in *.
    assert (Hagain : messages session s1 = (Return l, s1))
      by (unfold messages; by rewrite Hbound).
    exists l. unfold outcome, exec. step Hrun. rewrite Hrun, Hagain. simpl.
    by repeat split.
Qed.

Lemma read_returns_appended_messages_witness :
  histories empty_state !! "unused" = None ∧
  read "unused"
    (exec (for_ [HumanMessage "Hey there! I'm Nemo."; AIMessage "Hello!"]
             (add_message "unused")) empty_state)
  = [HumanMessage "Hey there! I'm Nemo."; AIMessage "Hello!"].
Proof.
  assert (Hunseen : histories empty_state !! "unused" = None) by reflexivity.
  split; [exact Hunseen|].
  destruct read_returns_appended_messages as (_ & Hfresh & _).
  destruct (Hfresh empty_state "unused" Hunseen) as [_ Hback].
  apply Hback.
Defined.

(** C7. After [clear] the session's sequence is empty, and clearing twice
    in succession leaves every session with the sequence it has after
    clearing once. *)
Theorem clear_idempotent (session : string) (s : State) :
  outcome (clear session) s = Return tt ∧
  read session (exec (clear session) s) = [] ∧
  outcome (clear session ;;; clear session) s = Return tt ∧
  (∀ k, read k (exec (clear session ;;; clear session) s) = read k (exec (clear session) s)) ∧
  calls (exec (clear session ;;; clear session) s) = calls (exec (clear session) s).
Proof.
  destruct (clear_spec session s) as (Hone & Hempty & _ & _ & _).
  set (s1 := exec (clear session) s) in *.
  destruct (clear_spec session s1) as (Htwo & Hempty' & _ & Hother & Hcalls).
  set (s2 := exec (clear session) s1) in *.
  unfold outcome, exec. step Hone. rewrite Hone, Htwo. simpl.
  repeat split; try done.
  intros k. destruct (decide (k = session)) as [->|Hne].
  - by rewrite Hempty, Hempty'.
  - by apply Hother.
Qed.

(** The histories recorded in cells 10, 14 and 16. *)
Example cell_10_example :
  read "unused" preloaded
  = [HumanMessage "Hey there! I'm Nemo."; AIMessage "Hello!";
     HumanMessage "How are you today?"; AIMessage "Fine thanks!"].
Proof. vm_compute. reflexivity. Qed.

Example cell_14_example :
  read "unused" (exec (cells_11_to_13 "unused") preloaded)
  = [HumanMessage "What's my name?"; AIMessage "Your name is Nemo.";
     HumanMessage "Where does P. Sherman live?";
     AIMessage "P. Sherman's address is 42 Wallaby Way, Sydney."].
Proof. vm_compute. reflexivity. Qed.

Example cell_16_example :
  read "unused" (exec (cells_11_to_15 "unused") preloaded)
  = [HumanMessage "Where does P. Sherman live?";
     AIMessage "P. Sherman's address is 42 Wallaby Way, Sydney.";
     HumanMessage "What is my name?";
     AIMessage "I'm sorry, I don't have access to your personal information."].
Proof. vm_compute. reflexivity. Qed.

(** The spec's second scenario on the notebook's data: trimming the four
    messages of cell 10 and then running a turn leaves four messages, the
    two kept ones being the original third and fourth. *)
Example trim_then_turn_example :
  read "unused"
    (exec (trim_messages "unused" PNone ;;; manual_turn nemo_chat "unused" "What's my name?")
       preloaded)
  = [HumanMessage "How are you today?"; AIMessage "Fine thanks!";
     HumanMessage "What's my name?"; AIMessage "Your name is Nemo."].
Proof. vm_compute. reflexivity. Qed.

(** ** Running composed statements *)

Lemma exec_bind {A B : Type} (c : M A) (k : A → M B) (s : State) :
  exec (bind c k) s
  = match outcome c s with
    | Return a => exec (k a) (exec c s)
    | Raise _ => exec c s
    end.
Proof. unfold exec, outcome. simpl. by destruct (c s) as [[a|e] s']. Qed.

Lemma outcome_bind {A B : Type} (c : M A) (k : A → M B) (s : State) :
  outcome (bind c k) s
  = match outcome c s with
    | Return a => outcome (k a) (exec c s)
    | Raise e => Raise e
    end.
Proof. unfold exec, outcome. simpl. by destruct (c s) as [[a|e] s']. Qed.




(** A statement that touches neither the lists nor the bindings. *)
Lemma preserves_holds_same {A : Type} (other : string) (xs : list Message) (c : M A) :
  (∀ s, lists (exec c s) = lists s ∧ histories (exec c s) = histories s) →
  preserves (holds other xs) c.
Proof.
  intros Hsame s [[Hbound Hinj] Hread]. destruct (Hsame s) as [Hl Hh].
  unfold holds, well_formed, read, deref. rewrite Hl, Hh. by repeat split.
Qed.

(** ** The history primitives keep the other sessions *)





Lemma chat_invoke_holds (chat : nat → list Message → Result Message)
    (other : string) (xs p : list Message) :
  preserves (holds other xs) (chat_invoke chat p).
Proof. by apply preserves_holds_same. Qed.




(** ** What each notebook function does, in one statement *)

Lemma trim_messages_run (session : string) (chain_input : PyVal) (s : State) :
  outcome (trim_messages session chain_input) s
  = Return (bool_decide (2 < length (read session s))%nat) ∧
  read session (exec (trim_messages session chain_input) s)
  = drop (length (read session s) - 2) (read session s) ∧
  calls (exec (trim_messages session chain_input) s) = calls s.
Proof.
  destruct (messages_spec session s) as (l & Hrun & _ & Hl & _ & Hread & Hcalls).
  set (s1 := exec (messages session) s) in *.
  unfold outcome, exec, trim_messages.
  step Hrun. step (len_run l s1). rewrite Hl.
  destruct (Z.leb_spec (Z.of_nat (length (read session s))) 2) as [Hle|Hgt].
  - rewrite bool_decide_eq_false_2 by lia. simpl. rewrite Hread, Hcalls.
    repeat split. replace (length (read session s) - 2)%nat with 0%nat by lia. done.
  - rewrite bool_decide_eq_true_2 by lia.
    destruct (clear_spec session s1) as (Hclear & Hempty & Hkeep & _ & Hc2).
    set (s2 := exec (clear session) s1) in *.
    step Hclear. step (slice_run l (-2) s2).
    rewrite Hkeep, Hl, slice_from_last_two.
    destruct (for_add_message_spec session
                (drop (length (read session s) - 2) (read session s)) s2)
      as (Hloop & Hkept & Hc3).
    step Hloop. simpl. by rewrite Hkept, Hempty, Hc3, Hc2, Hcalls.
Qed.

Lemma manual_turn_full (chat : nat → list Message → Result Message)
    (session input : string) (s : State) :
  calls (exec (manual_turn chat session input) s)
  = calls s ++ [prompt (read session s ++ [HumanMessage input])] ∧
  match chat (length (calls s)) (prompt (read session s ++ [HumanMessage input])) with
  | Return response =>
      outcome (manual_turn chat session input) s = Return tt ∧
      read session (exec (manual_turn chat session input) s)
      = read session s ++ [HumanMessage input; response]
  | Raise e =>
      outcome (manual_turn chat session input) s = Raise e ∧
      read session (exec (manual_turn chat session input) s)
      = read session s ++ [HumanMessage input]
  end.
Proof.
  destruct (add_message_spec session (HumanMessage input) s) as (Hadd & Hreq & Hc1).
  set (s1 := exec (add_message session (HumanMessage input)) s) in *.
  destruct (messages_spec session s1) as (l & Hrun & _ & Hl & _ & Hread & Hc2).
  set (s2 := exec (messages session) s1) in *.
  set (p := prompt (read session s ++ [HumanMessage input])).
  set (s3 := mkState (lists s2) (histories s2) (calls s ++ [p])).
  assert (Hinvoke : chain_invoke chat l s2 = (chat (length (calls s)) p, s3)).
  { unfold chain_invoke. rewrite chat_invoke_run, Hl, Hreq, Hc2, Hc1. reflexivity. }
  assert (Hread3 : read session s3 = read session s ++ [HumanMessage input]).
  { unfold s3. by rewrite read_calls, Hread, Hreq. }
  destruct (chat (length (calls s)) p) as [response|e].
  - destruct (add_message_spec session response s3) as (Hadd' & Hresp & Hc4).
    set (s4 := exec (add_message session response) s3) in *.
    assert (Hall : manual_turn chat session input s = (Return tt, s4)).
    { unfold manual_turn, add_user_message, add_ai_message.
      step Hadd. step Hrun. step Hinvoke. exact Hadd'. }
    unfold outcome, exec. rewrite Hall. simpl.
    rewrite Hc4, Hresp, Hread3, <- app_assoc. done.
  - assert (Hall : manual_turn chat session input s = (Raise e, s3)).
    { unfold manual_turn, add_user_message.
      step Hadd. step Hrun. by apply bind_Raise. }
    unfold outcome, exec. rewrite Hall. simpl. by rewrite Hread3.
Qed.

Lemma summarize_messages_run (chat : nat → list Message → Result Message)
    (session : string) (chain_input : PyVal) (s : State) :
  match read session s with
  | [] =>
      outcome (summarize_messages chat session chain_input) s = Return false ∧
      read session (exec (summarize_messages chat session chain_input) s) = [] ∧
      calls (exec (summarize_messages chat session chain_input) s) = calls s
  | _ :: _ =>
      calls (exec (summarize_messages chat session chain_input) s)
      = calls s ++ [summarization_prompt (read session s)] ∧
      match chat (length (calls s)) (summarization_prompt (read session s)) with
      | Return summary =>
          outcome (summarize_messages chat session chain_input) s = Return true ∧
          read session (exec (summarize_messages chat session chain_input) s) = [summary]
      | Raise e =>
          outcome (summarize_messages chat session chain_input) s = Raise e ∧
          read session (exec (summarize_messages chat session chain_input) s)
          = read session s
      end
  end.
Proof.
  destruct (messages_spec session s) as (l & Hrun & _ & Hl & _ & Hread & Hcalls).
  set (s1 := exec (messages session) s) in *.
  destruct (read session s) as [|m stored] eqn:Hstored.
  - assert (Hall : summarize_messages chat session chain_input s = (Return false, s1)).
    { unfold summarize_messages. step Hrun. step (len_run l s1). rewrite Hl. reflexivity. }
    unfold outcome, exec. rewrite Hall. simpl. by rewrite Hread, Hcalls.
  - set (p := summarization_prompt (m :: stored)).
    set (s2 := mkState (lists s1) (histories s1) (calls s ++ [p])).
    assert (Hinvoke : summarization_chain_invoke chat l s1 = (chat (length (calls s)) p, s2)).
    { unfold summarization_chain_invoke. rewrite chat_invoke_run, Hl, Hcalls. reflexivity. }
    assert (Hstart :
               summarize_messages chat session chain_input s
               = bind (summarization_chain_invoke chat l)
                   (λ summary_message,
                      clear session ;;; add_message session summary_message ;;; ret true) s1).
    { unfold summarize_messages. step Hrun. step (len_run l s1). rewrite Hl.
      replace (Z.of_nat (length (m :: stored)) =? 0) with false
        by (symmetry; apply Z.eqb_neq; simpl; lia).
      reflexivity. }
    rewrite <- Hstored in *.
    destruct (chat (length (calls s)) p) as [summary|e].
    + destruct (clear_spec session s2) as (Hclear & Hempty & _ & _ & Hc3).
      set (s3 := exec (clear session) s2) in *.
      destruct (add_message_spec session summary s3) as (Hadd & Hsum & Hc4).
      set (s4 := exec (add_message session summary) s3) in *.
      assert (Hall : summarize_messages chat session chain_input s = (Return true, s4)).
      { rewrite Hstart. step Hinvoke. step Hclear. step Hadd. reflexivity. }
      unfold outcome, exec. rewrite Hall. simpl. by rewrite Hc4, Hc3, Hsum, Hempty.
    + assert (Hall : summarize_messages chat session chain_input s = (Raise e, s2)).
      { rewrite Hstart. by apply bind_Raise. }
      unfold outcome, exec. rewrite Hall. simpl. unfold s2. by rewrite read_calls, Hread.
Qed.

(** ** Further facts about the chat history *)




(** X9. Trimming twice is trimming once: the second [trim_messages] finds
    at most two messages, returns [False] and changes nothing. Trimming
    never raises and never calls the model. *)
Theorem trim_messages_idempotent (session : string) (chain_input chain_input' : PyVal)
    (s : State) :
  outcome (trim_messages session chain_input ;;; trim_messages session chain_input') s
  = Return false ∧
  read session (exec (trim_messages session chain_input ;;;
                      trim_messages session chain_input') s)
  = read session (exec (trim_messages session chain_input) s) ∧
  calls (exec (trim_messages session chain_input ;;;
               trim_messages session chain_input') s) = calls s.
Proof.
  destruct (trim_messages_run session chain_input s) as (Hout & Hread & Hcalls).
  destruct (trim_messages_run session chain_input'
              (exec (trim_messages session chain_input) s)) as (Hout' & Hread' & Hcalls').
  rewrite outcome_bind, exec_bind, Hout, Hout', Hread', Hcalls', Hcalls.
  assert (Hshort : (length (read session (exec (trim_messages session chain_input) s)) ≤ 2)%nat).
  { rewrite Hread, length_drop. lia. }
  rewrite bool_decide_eq_false_2 by lia. repeat split.
  replace (length (read session (exec (trim_messages session chain_input) s)) - 2)%nat
    with 0%nat by lia. done.
Qed.





(** X12. A turn calls the model exactly once, whether the call returns or
    raises, and what the model is sent is the system message, then the
    whole stored history, then the new input. *)
Theorem manual_turn_prompt (chat : nat → list Message → Result Message)
    (session input : string) (s : State) :
  calls (exec (manual_turn chat session input) s)
  = calls s ++
    [SystemMessage "You are a helpful assistant. Answer all questions to the best of your ability."
       :: read session s ++ [HumanMessage input]].
Proof. by destruct (manual_turn_full chat session input s) as [Hcalls _]. Qed.

(** X13. Running a turn again after its model call failed stores the
    request twice: the first attempt has left the request in the history,
    the second appends it again, and the model is sent both. *)
Theorem manual_turn_retry_duplicates (chat : nat → list Message → Result Message)
    (session input : string) (s : State) (e : Exn) (response : Message) :
  chat (length (calls s)) (prompt (read session s ++ [HumanMessage input])) = Raise e →
  chat (S (length (calls s)))
       (prompt (read session s ++ [HumanMessage input; HumanMessage input]))
  = Return response →
  outcome (manual_turn chat session input) s = Raise e ∧
  outcome (manual_turn chat session input) (exec (manual_turn chat session input) s)
  = Return tt ∧
  read session (exec (manual_turn chat session input) (exec (manual_turn chat session input) s))
  = read session s ++ [HumanMessage input; HumanMessage input; response].
Proof.
  intros Hfail Hok.
  destruct (manual_turn_full chat session input s) as (Hcalls & Hfirst).
  rewrite Hfail in Hfirst. destruct Hfirst as [Hout Hlog].
  destruct (manual_turn_full chat session input (exec (manual_turn chat session input) s))
    as (_ & Hsecond).
  rewrite Hcalls, length_app, Hlog, <- app_assoc in Hsecond. simpl in Hsecond.
  replace (length (calls s) + 1)%nat with (S (length (calls s))) in Hsecond by lia.
  rewrite Hok in Hsecond. destruct Hsecond as [Hout' Hlog'].
  by rewrite Hlog', <- app_assoc.
Qed.

Lemma manual_turn_retry_duplicates_witness :
  read "unused"
    (exec (manual_turn flaky_chat "unused" "What's my name?")
       (exec (manual_turn flaky_chat "unused" "What's my name?") nemo_state))
  = [HumanMessage "Hi I'm Nemo"; HumanMessage "What's my name?";
     HumanMessage "What's my name?"; AIMessage "Your name is Nemo."].
Proof.
  destruct (manual_turn_retry_duplicates flaky_chat "unused" "What's my name?" nemo_state
              (ModelError "Request timed out.") (AIMessage "Your name is Nemo.")
              eq_refl eq_refl) as (_ & _ & Hlog).
  rewrite Hlog. vm_compute. reflexivity.
Defined.



(** X15. Summarizing is not idempotent: on a history that holds only a
    summary, [summarize_messages] calls the model again, on that one
    message, and stores the new answer in its place. *)
Theorem summarize_messages_twice (chat : nat → list Message → Result Message)
    (session : string) (chain_input chain_input' : PyVal) (s : State)
    (summary summary' : Message) :
  read session s ≠ [] →
  chat (length (calls s)) (summarization_prompt (read session s)) = Return summary →
  chat (S (length (calls s))) (summarization_prompt [summary]) = Return summary' →
  outcome (summarize_messages chat session chain_input ;;;
           summarize_messages chat session chain_input') s = Return true ∧
  read session (exec (summarize_messages chat session chain_input ;;;
                      summarize_messages chat session chain_input') s) = [summary'] ∧
  calls (exec (summarize_messages chat session chain_input ;;;
               summarize_messages chat session chain_input') s)
  = calls s ++ [summarization_prompt (read session s); summarization_prompt [summary]].
Proof.
  intros Hne Hfirst Hsecond.
  pose proof (summarize_messages_run chat session chain_input s) as Hsum.
  destruct (read session s) as [|m stored] eqn:Hstored; [done|].
  destruct Hsum as [Hcalls Hsum]. rewrite Hfirst in Hsum. destruct Hsum as [Hout Hone].
  pose proof (summarize_messages_run chat session chain_input'
                (exec (summarize_messages chat session chain_input) s)) as Hsum'.
  rewrite Hone, Hcalls, length_app in Hsum'. simpl in Hsum'.
  replace (length (calls s) + 1)%nat with (S (length (calls s))) in Hsum' by lia.
  destruct Hsum' as [Hcalls' Hsum']. rewrite Hsecond in Hsum'. destruct Hsum' as [Hout' Hone'].
  rewrite outcome_bind, exec_bind, Hout, Hout', Hone', Hcalls', <- app_assoc. done.
Qed.

Lemma summarize_messages_twice_witness :
  read "unused"
    (exec (summarize_messages recorded_summary_chat "unused" PNone ;;;
           summarize_messages recorded_summary_chat "unused" PNone) preloaded)
  = [AIMessage "You introduced yourself as Nemo. How can I assist you today, Nemo?"].
Proof.
  destruct (summarize_messages_twice recorded_summary_chat "unused" PNone PNone preloaded
              (AIMessage "The conversation is between Nemo and an AI. Nemo introduces himself and the AI responds with a greeting. Nemo then asks the AI how it is doing, and the AI responds that it is fine.")
              (AIMessage "You introduced yourself as Nemo. How can I assist you today, Nemo?"))
    as (_ & Hlog & _).
  - intros H. vm_compute in H. discriminate H.
  - reflexivity.
  - reflexivity.
  - exact Hlog.
Defined.

(** X16. Cell 5 leaves its second request unanswered in the history.
    Whatever was there before, when both model calls return, the new
    history holds the first request, the first response and the second
    request; the second response is the value of the cell and is stored
    nowhere. The second call is sent the first exchange as context. *)
Theorem cell_5_log (chat : nat → list Message → Result Message) (session : string)
    (s : State) (response1 response2 : Message) :
  chat (length (calls s))
       (prompt [HumanMessage "Translate this sentence from English to French: I love programming."])
  = Return response1 →
  chat (S (length (calls s)))
       (prompt [HumanMessage "Translate this sentence from English to French: I love programming.";
                response1; HumanMessage "What did I just ask you?"])
  = Return response2 →
  outcome (cell_5 chat session) s = Return response2 ∧
  read session (exec (cell_5 chat session) s)
  = [HumanMessage "Translate this sentence from English to French: I love programming.";
     response1; HumanMessage "What did I just ask you?"] ∧
  length (calls (exec (cell_5 chat session) s)) = (length (calls s) + 2)%nat.
Proof.
  intros Hfirst Hsecond.
  set (input1 := "Translate this sentence from English to French: I love programming.") in *.
  set (input2 := "What did I just ask you?") in *.
  destruct (clear_spec session s) as (Hnew & Hempty & _ & _ & Hc0).
  rewrite <- ChatMessageHistory_spec in Hnew.
  set (s0 := exec (clear session) s) in *.
  destruct (add_message_spec session (HumanMessage input1) s0) as (Hadd1 & Hlog1 & Hc1).
  set (s1 := exec (add_message session (HumanMessage input1)) s0) in *.
  destruct (messages_spec session s1) as (l1 & Hrun1 & _ & Hl1 & _ & Hread2 & Hc2).
  set (s2 := exec (messages session) s1) in *.
  set (s3 := mkState (lists s2) (histories s2) (calls s2 ++ [prompt (deref s2 l1)])).
  assert (Hinvoke1 : chain_invoke chat l1 s2 = (Return response1, s3)).
  { assert (Hfirst' : chat (length (calls s2)) (prompt (deref s2 l1)) = Return response1)
      by (by rewrite Hl1, Hlog1, Hempty, Hc2, Hc1, Hc0).
    unfold chain_invoke. by rewrite chat_invoke_run, Hfirst'. }
  destruct (add_message_spec session response1 s3) as (Hadd2 & Hlog4 & Hc4).
  set (s4 := exec (add_message session response1) s3) in *.
  destruct (add_message_spec session (HumanMessage input2) s4) as (Hadd3 & Hlog5 & Hc5).
  set (s5 := exec (add_message session (HumanMessage input2)) s4) in *.
  destruct (messages_spec session s5) as (l2 & Hrun2 & _ & Hl2 & _ & Hread6 & Hc6).
  set (s6 := exec (messages session) s5) in *.
  assert (Hlog : read session s5 = [HumanMessage input1; response1; HumanMessage input2]).
  { rewrite Hlog5, Hlog4. unfold s3. by rewrite read_calls, Hread2, Hlog1, Hempty. }
  assert (Hcalls : length (calls s6) = S (length (calls s))).
  { rewrite Hc6, Hc5, Hc4. unfold s3. simpl. rewrite length_app, Hc2, Hc1, Hc0. simpl. lia. }
  set (s7 := mkState (lists s6) (histories s6) (calls s6 ++ [prompt (deref s6 l2)])).
  assert (Hinvoke2 : chain_invoke chat l2 s6 = (Return response2, s7)).
  { assert (Hsecond' : chat (length (calls s6)) (prompt (deref s6 l2)) = Return response2)
      by (by rewrite Hl2, Hlog, Hcalls).
    unfold chain_invoke. by rewrite chat_invoke_run, Hsecond'. }
  assert (Hall : cell_5 chat session s = (Return response2, s7)).
  { unfold cell_5, add_user_message, add_ai_message. cbv zeta. fold input1 input2.
    step Hnew. step Hadd1. step Hrun1. step Hinvoke1. step Hadd2. step Hadd3. step Hrun2.
    exact Hinvoke2. }
  unfold outcome, exec. rewrite Hall. simpl.
  unfold s7. rewrite read_calls, Hread6, Hlog. simpl. rewrite length_app, Hcalls. simpl.
  repeat split. lia.
Qed.

Lemma cell_5_log_witness :
  read "unused" (exec (cell_5 nemo_chat "unused") preloaded)
  = [HumanMessage "Translate this sentence from English to French: I love programming.";
     AIMessage "Your name is Nemo."; HumanMessage "What did I just ask you?"].
Proof.
  destruct (cell_5_log nemo_chat "unused" preloaded
              (AIMessage "Your name is Nemo.") (AIMessage "Your name is Nemo.")
              eq_refl eq_refl) as (_ & Hlog & _).
  exact Hlog.
Defined.

End MemoryFacts.
